(** * The music catalogue server (backend/server.js)

    A shallow embedding of the Express handlers of [backend/server.js]:
    upload, list/search, audio streaming and deletion, over an explicit
    world made of the Song collection, the GridFS bucket and the console.

    Conventions.
    - Text is a Rocq [string] of 7-bit characters; nothing is said about
      non-ASCII text (case folding and white space are the ASCII ones).
    - The JavaScript numbers that occur are the doubles of [number]: an
      integer value or an infinity; [NaN] is the missing value of an
      [option number].  An integer beyond 2^53 is rounded to the nearest
      double, as the platform does; minus zero is not told apart from
      zero.
    - Values that the platform draws for a request (the clock, fresh object
      ids, the short-code generator, infrastructure faults) are the fields
      of an explicit environment [Env]. *)

From Stdlib Require Import ZArith List Bool Ascii String Lia.
From Stdlib Require Import Permutation Sorted DecimalString.
Import ListNotations.
Local Open Scope string_scope.
Local Open Scope Z_scope.

Set Implicit Arguments.

(** ** Characters and text *)

Module Text.

Definition chars (s : string) : list ascii := list_ascii_of_string s.

Definition code (c : ascii) : N := N_of_ascii c.

Definition between (lo hi : N) (c : ascii) : bool :=
  (N.leb lo (code c) && N.leb (code c) hi)%bool.

Definition is_lower (c : ascii) : bool := between 97 122 c.
Definition is_digit (c : ascii) : bool := between 48 57 c.

(** Upper-casing of one character: the canonical form under which the
    [i] flag of a regular expression compares characters. *)
Definition upper (c : ascii) : ascii :=
  if is_lower c then ascii_of_N (code c - 32) else c.

Definition upcase (l : list ascii) : list ascii := map upper l.

Definition same_letter (c d : ascii) : bool := Ascii.eqb (upper c) (upper d).

(** [String.prototype.startsWith]. *)
Definition startsWith (s p : string) : bool := String.prefix p s.

(** JavaScript truthiness of a value that is a string or [undefined]. *)
Definition truthy (v : option string) : bool :=
  match v with
  | Some (String _ _) => true
  | _ => false
  end.

(** [ToString] of a value that is a string or [undefined]. *)
Definition toString (v : option string) : string :=
  match v with
  | Some s => s
  | None => "undefined"
  end.

(** Decimal rendering of an integer, as in a template literal. *)
Definition show_int (z : Z) : string := NilZero.string_of_int (Z.to_int z).

End Text.

(** ** Numbers *)

(** A double other than [NaN] whose value is an integer, or an
    infinity; minus zero is not told from zero. *)
Inductive number : Type :=
| Finite (value : Z)
| Infinite (negative : bool).

Coercion Finite : Z >-> number.

Definition number_eqb (a b : number) : bool :=
  match a, b with
  | Finite x, Finite y => x =? y
  | Infinite m, Infinite n => Bool.eqb m n
  | _, _ => false
  end.

Definition number_opp (a : number) : number :=
  match a with
  | Finite x => Finite (- x)
  | Infinite n => Infinite (negb n)
  end.

(** The double nearest to a natural number [m]: up to 53 bits [m]
    itself; beyond, the leading 53 bits rounded on the bits that are cut
    off, a tie going to the even side; infinity when that reaches
    2^1024. *)
Definition nearest_double (m : Z) : number :=
  let bits := Z.log2 m + 1 in
  if bits <=? 53 then Finite m
  else
    let e := bits - 53 in
    let q := Z.shiftr m e in
    let r := m - Z.shiftl q e in
    let half := Z.shiftl 1 (e - 1) in
    let q' := if ((half <? r) || ((r =? half) && Z.odd q))%bool
              then q + 1 else q in
    let v := Z.shiftl q' e in
    if 2 ^ 1024 <=? v then Infinite false else Finite v.

(** ** [parseInt] with no radix argument *)

Module ParseInt.

Import Text.

(** White space skipped in front of the number (ASCII part of
    [StrWhiteSpaceChar]): TAB, LF, VT, FF, CR and SPACE. *)
Definition is_space (c : ascii) : bool :=
  (between 9 13 c || N.eqb (code c) 32)%bool.

Fixpoint skip_spaces (l : list ascii) : list ascii :=
  match l with
  | c :: l' => if is_space c then skip_spaces l' else l
  | [] => []
  end.

(** Value of a digit in the given radix, when it is one. *)
Definition digit_value (radix : Z) (c : ascii) : option Z :=
  let n := Z.of_N (code c) in
  let v :=
    if is_digit c then Some (n - 48)
    else if between 97 122 c then Some (n - 87)
    else if between 65 90 c then Some (n - 55)
    else None in
  match v with
  | Some d => if d <? radix then Some d else None
  | None => None
  end.

(** Reads the longest prefix of digits; [acc] is [None] until a digit
    has been read. *)
Fixpoint read_digits (radix : Z) (acc : option Z) (l : list ascii)
  : option Z :=
  match l with
  | [] => acc
  | c :: l' =>
      match digit_value radix c with
      | Some d =>
          read_digits radix
            (Some (match acc with Some a => a * radix + d | None => d end)) l'
      | None => acc
      end
  end.

Definition strip_sign (l : list ascii) : Z * list ascii :=
  match l with
  | "-"%char :: l' => (-1, l')
  | "+"%char :: l' => (1, l')
  | _ => (1, l)
  end.

Definition strip_hex (l : list ascii) : Z * list ascii :=
  match l with
  | "0"%char :: "x"%char :: l' => (16, l')
  | "0"%char :: "X"%char :: l' => (16, l')
  | _ => (10, l)
  end.

(** [parseInt(s)]: the integer that the digits spell, as a Number with
    the sign in front; [None] stands for [NaN]. *)
Definition parseInt (s : string) : option number :=
  let (sign, l1) := strip_sign (skip_spaces (chars s)) in
  let (radix, l2) := strip_hex l1 in
  match read_digits radix None l2 with
  | Some m =>
      Some (if sign <? 0 then number_opp (nearest_double m)
            else nearest_double m)
  | None => None
  end.

End ParseInt.

(** ** The regular expressions that [new RegExp(search, 'i')] builds

    The pattern is built by the JavaScript constructor, which reports the
    syntax errors; the database then matches the stored text against it.
    The modelled fragment of the pattern language: literal characters,
    [.], identity escapes of syntax characters, the quantifiers [*], [+]
    and [?] (greedy or lazy), the assertions [^] and [$], and alternation
    with [|].  Groups, classes, braces and the remaining escapes are
    reported as [Unsupported]: the model says nothing about them. *)

Module RegExp.

Import Text.

Inductive token : Type :=
| TLit (c : ascii)
| TDot
| TStar
| TPlus
| TQuest
| TBar
| TCaret
| TDollar.

Inductive atom : Type :=
| AChr (c : ascii)
| ADot.

Inductive quant : Type := One | Opt | Star | Plus.

Inductive term : Type :=
| Bol
| Eol
| Rep (a : atom) (q : quant).

Definition alternative : Type := list term.

(** A pattern is a disjunction of alternatives. *)
Definition pattern : Type := list alternative.

Inductive compiled (A : Type) : Type :=
| Compiled (a : A)
| SyntaxError
| Unsupported.
Arguments SyntaxError {A}.
Arguments Unsupported {A}.

(** The characters with a meaning of their own in a pattern. *)
Definition syntax_char (c : ascii) : bool :=
  existsb (Ascii.eqb c) (chars "^$\.*+?()[]{}|").

(** Lexing: only a backslash looks at the character after it. *)
Fixpoint lex (l : list ascii) : compiled (list token) :=
  match l with
  | [] => Compiled []
  | c :: l' =>
      let one (t : token) :=
        match lex l' with
        | Compiled ts => Compiled (t :: ts)
        | SyntaxError => SyntaxError
        | Unsupported => Unsupported
        end in
      if Ascii.eqb c "\"%char then
        match l' with
        | [] => SyntaxError
        | d :: l'' =>
            if syntax_char d then
              match lex l'' with
              | Compiled ts => Compiled (TLit d :: ts)
              | SyntaxError => SyntaxError
              | Unsupported => Unsupported
              end
            else Unsupported
        end
      else if Ascii.eqb c "."%char then one TDot
      else if Ascii.eqb c "*"%char then one TStar
      else if Ascii.eqb c "+"%char then one TPlus
      else if Ascii.eqb c "?"%char then one TQuest
      else if Ascii.eqb c "|"%char then one TBar
      else if Ascii.eqb c "^"%char then one TCaret
      else if Ascii.eqb c "$"%char then one TDollar
      else if syntax_char c then Unsupported
      else one (TLit c)
  end.

(** What may follow the term read last. *)
Inductive after : Type :=
| Fresh       (* start of an alternative, or after an assertion *)
| Atom        (* an atom: a quantifier may follow *)
| Quantified  (* a quantified atom: only the lazy mark may follow *)
| Closed.     (* a quantified atom with its lazy mark *)

Definition requantify (q : quant) (ts : alternative) : option alternative :=
  match ts with
  | Rep a One :: ts' => Some (Rep a q :: ts')
  | _ => None
  end.

(** Parsing of the token list; [done] holds the finished alternatives
    and [cur] the terms of the current one, both most recent first. *)
Fixpoint parse (toks : list token) (done : list alternative)
    (cur : alternative) (st : after) : option pattern :=
  match toks with
  | [] => Some (rev (rev cur :: done))
  | t :: toks' =>
      let quantifier (q : quant) :=
        match st with
        | Atom =>
            match requantify q cur with
            | Some cur' => parse toks' done cur' Quantified
            | None => None
            end
        | _ => None
        end in
      match t with
      | TLit c => parse toks' done (Rep (AChr c) One :: cur) Atom
      | TDot => parse toks' done (Rep ADot One :: cur) Atom
      | TCaret => parse toks' done (Bol :: cur) Fresh
      | TDollar => parse toks' done (Eol :: cur) Fresh
      | TBar => parse toks' (rev cur :: done) [] Fresh
      | TStar => quantifier Star
      | TPlus => quantifier Plus
      | TQuest =>
          match st with
          | Quantified => parse toks' done cur Closed
          | _ => quantifier Opt
          end
      end
  end.

(** [new RegExp(source, 'i')] on the modelled fragment. *)
Definition compile (source : string) : compiled pattern :=
  match lex (chars source) with
  | Compiled toks =>
      match parse toks [] [] Fresh with
      | Some p => Compiled p
      | None => SyntaxError
      end
  | SyntaxError => SyntaxError
  | Unsupported => Unsupported
  end.

(** One character against one atom, ignoring case; the dot takes every
    character but the line feed, as the database's matcher has it. *)
Definition atom_matches (a : atom) (d : ascii) : bool :=
  match a with
  | AChr c => same_letter c d
  | ADot => negb (Ascii.eqb d "010"%char)
  end.

(** [$] holds at the end of the subject and, in the database's
    matcher, in front of a line feed that ends it. *)
Definition at_end (s : list ascii) : bool :=
  match s with
  | [] => true
  | [d] => Ascii.eqb d "010"%char
  | _ => false
  end.

(** [match_terms ts at_start s]: the terms match some prefix of [s];
    [at_start] tells whether [s] is the whole subject. *)
Fixpoint match_terms (ts : alternative) : bool -> list ascii -> bool :=
  match ts with
  | [] => fun _ _ => true
  | t :: ts' =>
      let k := match_terms ts' in
      let once (a : atom) (s : list ascii) :=
        match s with
        | d :: s' => (atom_matches a d && k false s')%bool
        | [] => false
        end in
      let many (a : atom) :=
        fix many (at_start : bool) (s : list ascii) : bool :=
          (k at_start s ||
           match s with
           | d :: s' => atom_matches a d && many false s'
           | [] => false
           end)%bool in
      match t with
      | Bol => fun at_start s => (at_start && k at_start s)%bool
      | Eol => fun at_start s => (at_end s && k at_start s)%bool
      | Rep a One => fun _ s => once a s
      | Rep a Opt => fun at_start s => (k at_start s || once a s)%bool
      | Rep a Star => many a
      | Rep a Plus => fun _ s =>
          match s with
          | d :: s' => (atom_matches a d && many a false s')%bool
          | [] => false
          end
      end
  end.

Definition match_here (p : pattern) (at_start : bool) (s : list ascii)
  : bool :=
  existsb (fun alt => match_terms alt at_start s) p.

(** The unanchored search: a match may begin at any position. *)
Fixpoint search_from (p : pattern) (at_start : bool) (s : list ascii)
  : bool :=
  (match_here p at_start s ||
   match s with
   | _ :: s' => search_from p false s'
   | [] => false
   end)%bool.

(** [re.test(subject)]. *)
Definition test (p : pattern) (subject : string) : bool :=
  search_from p true (chars subject).

End RegExp.

(** ** Data model *)

(** A driver object id (96 bits). *)
Definition ObjectId : Type := N.

(** The part of the MongoDB driver that the source only calls: reading
    an object id from its text form.  [ObjectId.isValid] accepts exactly
    the strings that this conversion reads. *)
Record Driver : Type := {
  parseObjectId : string -> option ObjectId
}.

(** A document of the Song collection. *)
Record Song : Type := mkSong {
  _id : ObjectId;
  title : string;
  artist : string;
  songcode : string;
  album : string;
  duration : number;
  fileId : option ObjectId;
  createdAt : Z
}.

(** A file of the GridFS bucket [uploads]. *)
Record GridFile : Type := mkGridFile {
  file_id : ObjectId;
  filename : string;
  data : list Byte.byte
}.

Inductive Error : Type :=
| OnlyAudioAllowed            (* Error('Only audio files are allowed!') *)
| MulterError (code : string)
| ValidationError
| MongoServerError (code : Z)
| MongoNetworkError
| FileNotFound
| RegExpSyntaxError.

(** [error.code === 11000]. *)
Definition is_duplicate_key (e : Error) : bool :=
  match e with
  | MongoServerError c => c =? 11000
  | _ => false
  end.

Inductive Line : Type :=
| console_log (msg : string) (arg : string)
| console_error (msg : string) (e : Error).

Inductive Body : Type :=
| ErrorBody (error : string)
| ErrorWith (prefix : string) (e : Error)
| MessageBody (message : string)
| UploadedBody (message : string) (song : Song) (fid : ObjectId)
| SongsBody (rows : list Song).

(** [res.status(code).json(body)]. *)
Record Reply : Type := json {
  status : Z;
  body : Body
}.

(** The collection in insertion order, the bucket, and the console
    (latest line first). *)
Record World : Type := mkWorld {
  songs : list Song;
  uploads : list GridFile;
  console : list Line
}.

(** What the platform supplies while one request is served. *)
Record Env : Type := mkEnv {
  now_stored : Z;               (* Date.now() in the storage's file() *)
  now_created : Z;              (* Date.now as default of createdAt *)
  fresh_file : ObjectId;        (* id given to the stored file *)
  fresh_song : ObjectId;        (* _id given to the new document *)
  shortid : nat -> string;      (* successive shortid.generate() results *)
  catalog_down : bool;          (* the collection cannot be reached *)
  storage_down : bool;          (* the bucket cannot be reached *)
  read_fails_after : option nat (* chunk reads that succeed before one fails *)
}.

(** ** Computations: world passing with exceptions *)

Definition M (A : Type) : Type := World -> World * (Error + A).

Definition ret {A} (a : A) : M A := fun w => (w, inr a).

Definition throw {A} (e : Error) : M A := fun w => (w, inl e).

Definition bind {A B} (c : M A) (k : A -> M B) : M B :=
  fun w =>
    match c w with
    | (w', inr a) => k a w'
    | (w', inl e) => (w', inl e)
    end.

(** [try { c } catch (error) { h error }]: what [c] did before it threw
    stays done. *)
Definition try_catch {A} (c : M A) (h : Error -> M A) : M A :=
  fun w =>
    match c w with
    | (w', inr a) => (w', inr a)
    | (w', inl e) => h e w'
    end.

Definition get : M World := fun w => (w, inr w).

Definition modify (f : World -> World) : M unit := fun w => (f w, inr tt).

Notation "x <- c ;; k" := (bind c (fun x => k))
  (at level 61, c at next level, right associativity).
Notation "c ;;; k" := (bind c (fun _ => k))
  (at level 61, right associativity).

Definition say (l : Line) : M unit :=
  modify (fun w => mkWorld (songs w) (uploads w) (l :: console w)).

(** ** The Song model (mongoose) *)

(** [new Song({...})] before it is saved: the fields as the handler
    passes them; the duration is what [parseInt] returned. *)
Record Draft : Type := mkDraft {
  d_title : option string;
  d_artist : option string;
  d_album : string;
  d_duration : option number;
  d_fileId : ObjectId
}.

Definition nonempty (s : string) : bool :=
  match s with
  | EmptyString => false
  | String _ _ => true
  end.

(** Schema validation at save time: [required] on title, artist and
    songcode, and the cast of duration to a Number, which refuses NaN. *)
Definition validate (env : Env) (d : Draft) : option Song :=
  match d_title d, d_artist d, d_duration d with
  | Some t, Some a, Some n =>
      if (nonempty t && nonempty a && nonempty (shortid env 0%nat))%bool
      then Some (mkSong (fresh_song env) t a (shortid env 0%nat) (d_album d)
                   n (Some (d_fileId d)) (now_created env))
      else None
  | _, _, _ => None
  end.

(** The unique indexes of the collection: [_id] and [songcode]. *)
Definition clashes (s : Song) (rows : list Song) : bool :=
  existsb (fun r => (N.eqb (_id r) (_id s)
                     || String.eqb (songcode r) (songcode s))%bool) rows.

(** [song.save()]. *)
Definition Song_save (env : Env) (d : Draft) : M Song :=
  match validate env d with
  | None => throw ValidationError
  | Some s =>
      if catalog_down env then throw MongoNetworkError
      else
        w <- get ;;
        if clashes s (songs w) then throw (MongoServerError 11000)
        else
          modify (fun w => mkWorld (songs w ++ [s]) (uploads w) (console w)) ;;;
          ret s
  end.

(** [Song.findById(id)]. *)
Definition Song_findById (env : Env) (id : ObjectId) : M (option Song) :=
  if catalog_down env then throw MongoNetworkError
  else
    w <- get ;;
    ret (find (fun r => N.eqb (_id r) id) (songs w)).

(** [Song.findByIdAndDelete(id)]. *)
Definition Song_findByIdAndDelete (env : Env) (id : ObjectId) : M unit :=
  if catalog_down env then throw MongoNetworkError
  else
    modify (fun w =>
      mkWorld (filter (fun r => negb (N.eqb (_id r) id)) (songs w))
              (uploads w) (console w)).

(** ** The GridFS bucket *)

Definition has_file (id : ObjectId) (fs : list GridFile) : bool :=
  existsb (fun f => N.eqb (file_id f) id) fs.

(** [gfs.delete(id)]: rejects when no file has that id. *)
Definition gfs_delete (env : Env) (id : ObjectId) : M unit :=
  if storage_down env then throw MongoNetworkError
  else
    w <- get ;;
    if has_file id (uploads w) then
      modify (fun w =>
        mkWorld (songs w)
                (filter (fun f => negb (N.eqb (file_id f) id)) (uploads w))
                (console w))
    else throw FileNotFound.

(** ** POST /api/upload *)

Record FilePart : Type := mkFilePart {
  originalname : string;
  mimetype : string;
  content : list Byte.byte
}.

(** The multipart request: [audioFile] is its first file part when
    that part is named [audioFile]; the text fields are those of
    [req.body], each sent at most once; [otherFiles] are the file parts
    that the middleware does not expect, with their field names: a first
    file part under another name, and every file part after the first.
    The parts come in the order in which the page sends them: the file,
    then the text fields. *)
Record UploadRequest : Type := mkUploadRequest {
  audioFile : option FilePart;
  body_title : option string;
  body_artist : option string;
  body_album : option string;
  body_duration : option string;
  otherFiles : list (string * FilePart)
}.

(** [limits.fileSize]: 50MB. *)
Definition fileSize : Z := 50 * 1024 * 1024.

(** The [fileFilter] of the multer instance. *)
Definition fileFilter (file : FilePart) : Error + bool :=
  if Text.startsWith (mimetype file) "audio/" then inr true
  else inl OnlyAudioAllowed.

(** The [file] function of the storage engine. *)
Definition storage_filename (env : Env) (file : FilePart) : string :=
  Text.show_int (now_stored env) ++ "-" ++ originalname file.

(** The limit on the value of a text field, which the options leave at
    the parser's default of 1MB. *)
Definition fieldSize : Z := 1024 * 1024.

Definition field_fits (value : option string) : bool :=
  match value with
  | Some s => Z.of_nat (String.length s) <=? fieldSize
  | None => true
  end.

Definition fields_fit (req : UploadRequest) : bool :=
  (field_fits (body_title req) && field_fits (body_artist req)
   && field_fits (body_album req) && field_fits (body_duration req))%bool.

(** The middleware takes one file, under the name [audioFile], and text
    fields within the limit: any other file part, and a longer text
    field, is answered with an error. *)
Definition expect_no_more (req : UploadRequest) (k : M (option ObjectId))
  : M (option ObjectId) :=
  match otherFiles req with
  | [] =>
      if fields_fit req then k else throw (MulterError "LIMIT_FIELD_VALUE")
  | _ :: _ => throw (MulterError "LIMIT_UNEXPECTED_FILE")
  end.

(** [upload.single('audioFile')]: filters the part, streams it into the
    bucket and hands [req.file.id] on; a part over the size limit, or
    one followed by an unexpected file part or by a text field over its
    limit, is removed again before the error is passed on.  The parts
    are taken in the order of the request, so an error of the first part
    comes before that of a later one. *)
Definition upload_single (env : Env) (req : UploadRequest)
  : M (option ObjectId) :=
  match audioFile req with
  | None => expect_no_more req (ret None)
  | Some file =>
      match fileFilter file with
      | inl err => throw err
      | inr false => expect_no_more req (ret None)
      | inr true =>
          if fileSize <? Z.of_nat (List.length (content file))
          then throw (MulterError "LIMIT_FILE_SIZE")
          else if storage_down env then throw MongoNetworkError
          else
            expect_no_more req
              (modify (fun w =>
                 mkWorld (songs w)
                   (uploads w ++ [mkGridFile (fresh_file env)
                                    (storage_filename env file)
                                    (content file)])
                   (console w)) ;;;
               ret (Some (fresh_file env)))
      end
  end.

(** [album || 'Unknown Album']. *)
Definition album_or_default (a : option string) : string :=
  match a with
  | Some (String c s) => String c s
  | _ => "Unknown Album"
  end.

(** The route handler, with its own [try]/[catch]. *)
Definition upload_handler (env : Env) (req : UploadRequest)
    (file : option ObjectId) : M Reply :=
  try_catch
    (match file with
     | None => ret (json 400 (ErrorBody "No file uploaded"))
     | Some fid =>
         if (negb (Text.truthy (body_title req))
             || negb (Text.truthy (body_artist req))
             || negb (Text.truthy (body_duration req)))%bool
         then
           ret (json 400
                  (ErrorBody
                     "Missing required fields: title, artist, duration"))
         else
           song <- Song_save env
                     (mkDraft (body_title req) (body_artist req)
                        (album_or_default (body_album req))
                        (ParseInt.parseInt (Text.toString (body_duration req)))
                        fid) ;;
           say (console_log "Song uploaded successfully:" (title song)) ;;;
           ret (json 200
                  (UploadedBody "Song uploaded successfully!" song fid))
     end)
    (fun error =>
       say (console_error "Upload error:" error) ;;;
       if is_duplicate_key error
       then ret (json 400 (ErrorBody "Song with this code already exists"))
       else ret (json 500 (ErrorWith "Error uploading song: " error))).

(** The error-handling middleware at the end of the chain. *)
Definition error_middleware (err : Error) : M Reply :=
  say (console_error "Error:" err) ;;;
  ret (json 500 (ErrorBody "Something went wrong!")).

(** Runs a route: an error that reaches [next] is answered by the
    error-handling middleware. *)
Definition route (c : M Reply) (w : World) : World * Reply :=
  match try_catch c error_middleware w with
  | (w', inr r) => (w', r)
  | (w', inl _) => (w', json 500 (ErrorBody "Something went wrong!"))
  end.

Definition POST_upload (env : Env) (req : UploadRequest)
  : World -> World * Reply :=
  route (file <- upload_single env req ;; upload_handler env req file).

(** ** GET /api/songs *)

(** The [$or] filter of the query; no filter when [search] is falsy. *)
Definition search_filter (search : option string)
  : RegExp.compiled (Song -> bool) :=
  match search with
  | Some (String c s) =>
      match RegExp.compile (String c s) with
      | RegExp.Compiled p =>
          RegExp.Compiled (fun r =>
            (RegExp.test p (title r) || RegExp.test p (artist r)
             || RegExp.test p (album r))%bool)
      | RegExp.SyntaxError => RegExp.SyntaxError
      | RegExp.Unsupported => RegExp.Unsupported
      end
  | _ => RegExp.Compiled (fun _ => true)
  end.

(** [.sort({ createdAt: -1 })]: no row is older than a row before it. *)
Definition newest_first (rows : list Song) : Prop :=
  StronglySorted (fun a b => createdAt b <= createdAt a) rows.

(** What the query [Song.find(filter).sort({ createdAt: -1 })] asks
    for: the rows that pass the filter, ordered on [createdAt] alone; it
    names no second key.  ([Song_find_sort] below is the order in which
    the database returns them.) *)
Definition find_sorted (catalog : list Song) (keep : Song -> bool)
    (rows : list Song) : Prop :=
  Permutation rows (filter keep catalog) /\ newest_first rows.

(** The handler, as a relation over the answers that meet the query:
    the rows of the query are answered 200; an error thrown by
    [new RegExp] or by the query is caught, logged and answered 500.  For
    a search string outside the modelled fragment of patterns the filter
    is not known: the constructor throws, or the rows are those of some
    filter. *)
Inductive GET_songs (env : Env) (search : option string) (w : World)
  : World * Reply -> Prop :=
| songs_found (keep : Song -> bool) (rows : list Song) :
    search_filter search = RegExp.Compiled keep ->
    catalog_down env = false ->
    find_sorted (songs w) keep rows ->
    GET_songs env search w (w, json 200 (SongsBody rows))
| songs_bad_pattern :
    search_filter search = RegExp.SyntaxError ->
    GET_songs env search w
      (mkWorld (songs w) (uploads w)
         (console_error "Error fetching songs:" RegExpSyntaxError
          :: console w),
       json 500 (ErrorBody "Server error"))
| songs_unreachable (keep : Song -> bool) :
    search_filter search = RegExp.Compiled keep ->
    catalog_down env = true ->
    GET_songs env search w
      (mkWorld (songs w) (uploads w)
         (console_error "Error fetching songs:" MongoNetworkError
          :: console w),
       json 500 (ErrorBody "Server error"))
| songs_other_found (keep : Song -> bool) (rows : list Song) :
    search_filter search = RegExp.Unsupported ->
    catalog_down env = false ->
    find_sorted (songs w) keep rows ->
    GET_songs env search w (w, json 200 (SongsBody rows))
| songs_other_error (e : Error) :
    search_filter search = RegExp.Unsupported ->
    e = RegExpSyntaxError
    \/ (e = MongoNetworkError /\ catalog_down env = true) ->
    GET_songs env search w
      (mkWorld (songs w) (uploads w)
         (console_error "Error fetching songs:" e :: console w),
       json 500 (ErrorBody "Server error")).

(** The order in which the database returns the rows: the documents
    are scanned in insertion order and sorted on the key by a sort that
    keeps documents of equal key in the order in which they came, here
    insertion into a list kept newest first, a row going in front of the
    rows no newer than it. *)
Fixpoint insert_newest (s : Song) (rows : list Song) : list Song :=
  match rows with
  | [] => [s]
  | r :: rows' =>
      if createdAt r <=? createdAt s then s :: rows
      else r :: insert_newest s rows'
  end.

Fixpoint sort_newest (rows : list Song) : list Song :=
  match rows with
  | [] => []
  | r :: rows' => insert_newest r (sort_newest rows')
  end.

(** [Song.find(filter).sort({ createdAt: -1 })] on the collection. *)
Definition Song_find_sort (catalog : list Song) (keep : Song -> bool)
  : list Song :=
  sort_newest (filter keep catalog).

(** The handler as a function, for the search strings whose filter is
    known. *)
Definition list_songs (env : Env) (search : option string) (w : World)
  : RegExp.compiled (World * Reply) :=
  match search_filter search with
  | RegExp.Compiled keep =>
      if catalog_down env
      then RegExp.Compiled
             (mkWorld (songs w) (uploads w)
                (console_error "Error fetching songs:" MongoNetworkError
                 :: console w),
              json 500 (ErrorBody "Server error"))
      else RegExp.Compiled
             (w, json 200 (SongsBody (Song_find_sort (songs w) keep)))
  | RegExp.SyntaxError =>
      RegExp.Compiled
        (mkWorld (songs w) (uploads w)
           (console_error "Error fetching songs:" RegExpSyntaxError
            :: console w),
         json 500 (ErrorBody "Server error"))
  | RegExp.Unsupported => RegExp.Unsupported
  end.

(** ** GET /api/songs/:songId/audio *)

(** The response object while a body is streamed. *)
Record Res : Type := mkRes {
  statusCode : Z;
  headers : list (string * string);
  headersSent : bool;
  written : list (list Byte.byte);   (* chunks sent, in order *)
  payload : option Body;             (* a JSON body, when one was sent *)
  finished : bool                    (* the response was ended *)
}.

Definition new_res : Res := mkRes 200 [] false [] None false.

(** [res.status(code).json(body)] on the response object. *)
Definition res_json (code : Z) (b : Body) (res : Res) : Res :=
  mkRes code (headers res) true (written res) (Some b) true.

(** [res.set({...})]. *)
Definition res_set (hs : list (string * string)) (res : Res) : Res :=
  mkRes (statusCode res) (hs ++ headers res) (headersSent res)
        (written res) (payload res) (finished res).

(** [res.write(chunk)]: the first write flushes the headers. *)
Definition res_write (chunk : list Byte.byte) (res : Res) : Res :=
  mkRes (statusCode res) (headers res) true (written res ++ [chunk])
        (payload res) (finished res).

(** [res.end()]. *)
Definition res_end (res : Res) : Res :=
  mkRes (statusCode res) (headers res) true (written res) (payload res) true.

Inductive StreamEvent : Type :=
| on_data (chunk : list Byte.byte)
| on_end
| on_error (e : Error).

(** Default chunk size of a GridFS bucket: 255 KiB. *)
Definition chunkSizeBytes : nat := 255 * 1024.

Fixpoint chunks (fuel : nat) (l : list Byte.byte) : list (list Byte.byte) :=
  match fuel, l with
  | _, [] => []
  | O, _ :: _ => []
  | S fuel', _ :: _ =>
      firstn chunkSizeBytes l :: chunks fuel' (skipn chunkSizeBytes l)
  end.

(** The events of [gfs.openDownloadStream(id)], in order: the chunks of
    the file and [end], or an [error] when the file is missing or a read
    fails. *)
Definition openDownloadStream (env : Env) (w : World) (id : ObjectId)
  : list StreamEvent :=
  if storage_down env then [on_error MongoNetworkError]
  else
    match find (fun f => N.eqb (file_id f) id) (uploads w) with
    | None => [on_error FileNotFound]
    | Some f =>
        let cs := chunks (List.length (data f)) (data f) in
        match read_fails_after env with
        | Some k =>
            if (k <? List.length cs)%nat
            then map on_data (firstn k cs) ++ [on_error MongoNetworkError]
            else map on_data cs ++ [on_end]
        | None => map on_data cs ++ [on_end]
        end
    end.

(** The ['error'] listener of the download stream. *)
Definition on_stream_error (error : Error) (w : World) (res : Res)
  : World * Res :=
  let w' := mkWorld (songs w) (uploads w)
              (console_error "Streaming error:" error :: console w) in
  if negb (headersSent res)
  then (w', res_json 404 (ErrorBody "Audio file not found") res)
  else (w', res).

(** [downloadStream.pipe(res)]: data is written through, [end] ends the
    response, and an error of the source runs its listener only; the
    destination is not ended for it. *)
Fixpoint pipe (events : list StreamEvent) (w : World) (res : Res)
  : World * Res :=
  match events with
  | [] => (w, res)
  | on_data chunk :: events' => pipe events' w (res_write chunk res)
  | on_end :: _ => (w, res_end res)
  | on_error e :: _ => on_stream_error e w res
  end.

Definition audio_headers : list (string * string) :=
  [("Content-Type", "audio/mpeg"); ("Accept-Ranges", "bytes");
   ("Cache-Control", "no-cache")].

(** The handler: the id is checked, the Song looked up, the headers
    set and the download stream piped into the response; an error
    thrown on the way is caught and answered 500 while no header is out. *)
Definition GET_audio (drv : Driver) (env : Env) (songId : string)
    (w : World) : World * Res :=
  let res := new_res in
  match parseObjectId drv songId with
  | None => (w, res_json 400 (ErrorBody "Invalid song ID") res)
  | Some id =>
      match Song_findById env id w with
      | (w1, inr (Some (mkSong _ _ _ _ _ _ (Some fid) _))) =>
          pipe (openDownloadStream env w1 fid) w1 (res_set audio_headers res)
      | (w1, inr _) =>
          (w1, res_json 404 (ErrorBody "Song or audio file not found") res)
      | (w1, inl err) =>
          let w2 := mkWorld (songs w1) (uploads w1)
                      (console_error "Error streaming audio:" err
                       :: console w1) in
          if negb (headersSent res)
          then (w2, res_json 500 (ErrorBody "Server error") res)
          else (w2, res)
      end
  end.

(** ** DELETE /api/songs/:songId *)

(** The handler: the inner [try]/[catch] around [gfs.delete] only logs,
    so the row is removed whether the stored object could be removed or
    not. *)
Definition delete_handler (drv : Driver) (env : Env) (songId : string)
  : M Reply :=
  try_catch
    (match parseObjectId drv songId with
     | None => ret (json 400 (ErrorBody "Invalid song ID"))
     | Some id =>
         found <- Song_findById env id ;;
         match found with
         | None => ret (json 404 (ErrorBody "Song not found"))
         | Some song =>
             match fileId song with
             | Some fid =>
                 try_catch (gfs_delete env fid)
                   (fun error =>
                      say (console_error
                             "Error deleting file from GridFS:" error))
             | None => ret tt
             end ;;;
             Song_findByIdAndDelete env id ;;;
             say (console_log "Song deleted:" (title song)) ;;;
             ret (json 200 (MessageBody "Song deleted successfully"))
         end
     end)
    (fun err =>
       say (console_error "Error deleting song:" err) ;;;
       ret (json 500 (ErrorBody "Server error"))).

Definition DELETE_song (drv : Driver) (env : Env) (songId : string)
  : World -> World * Reply :=
  route (delete_handler drv env songId).

(** ** Notions used to state the properties *)

(** [s] occurs in [t] when case is ignored: written without regular
    expressions, as a prefix test at every position of [t]. *)
Fixpoint ci_prefix (s t : list ascii) : bool :=
  match s, t with
  | [], _ => true
  | _ :: _, [] => false
  | c :: s', d :: t' => (Text.same_letter c d && ci_prefix s' t')%bool
  end.

Fixpoint ci_infix (s t : list ascii) : bool :=
  (ci_prefix s t ||
   match t with
   | _ :: t' => ci_infix s t'
   | [] => false
   end)%bool.

Definition ci_substring (s t : string) : bool :=
  ci_infix (Text.chars s) (Text.chars t).

(** The same notion as a proposition: some stretch of [t] is [s] up to
    the case of letters. *)
Definition ci_occurs (s t : string) : Prop :=
  exists pre post : list ascii,
    Text.upcase (Text.chars t)
    = (pre ++ Text.upcase (Text.chars s) ++ post)%list.

(** The filter that the search is described by. *)
Definition mentions (s : string) (r : Song) : bool :=
  (ci_substring s (title r) || ci_substring s (artist r)
   || ci_substring s (album r))%bool.

(** The term that a literal character compiles to. *)
Definition lit (c : ascii) : RegExp.term := RegExp.Rep (RegExp.AChr c) RegExp.One.

(** A search string without any syntax character. *)
Definition plain (s : string) : bool :=
  forallb (fun c => negb (RegExp.syntax_char c)) (Text.chars s).

(** The file of a request passes the multer stage and is stored. *)
Definition file_accepted (env : Env) (req : UploadRequest) : bool :=
  match audioFile req with
  | Some file =>
      (Text.startsWith (mimetype file) "audio/"
       && (Z.of_nat (List.length (content file)) <=? fileSize)
       && negb (storage_down env)
       && match otherFiles req with [] => true | _ :: _ => false end
       && fields_fit req)%bool
  | None => false
  end.

(** The object that the multer stage stores for a request. *)
Definition stored_object (env : Env) (req : UploadRequest) : list GridFile :=
  match audioFile req with
  | Some file =>
      [mkGridFile (fresh_file env) (storage_filename env file) (content file)]
  | None => []
  end.

(** The world once the multer stage has stored that object. *)
Definition with_object (env : Env) (req : UploadRequest) (w : World) : World :=
  mkWorld (songs w) (uploads w ++ stored_object env req) (console w).

(** The world after one more line on the console. *)
Definition logged (l : Line) (w : World) : World :=
  mkWorld (songs w) (uploads w) (l :: console w).

(** The three required text fields are present and not empty. *)
Definition fields_given (req : UploadRequest) : bool :=
  (Text.truthy (body_title req) && Text.truthy (body_artist req)
   && Text.truthy (body_duration req))%bool.

(** The document that the handler builds from the text fields, as
    validation leaves it; [None] when validation refuses it. *)
Definition new_song (env : Env) (req : UploadRequest) (fid : ObjectId)
  : option Song :=
  validate env
    (mkDraft (body_title req) (body_artist req)
       (album_or_default (body_album req))
       (ParseInt.parseInt (Text.toString (body_duration req))) fid).

(** The ways in which an upload ends, by the stage that decides it. *)
Inductive upload_case (env : Env) (req : UploadRequest) (w : World)
  : World * Reply -> Prop :=
| case_no_file :
    audioFile req = None ->
    otherFiles req = [] ->
    fields_fit req = true ->
    upload_case env req w (w, json 400 (ErrorBody "No file uploaded"))
| case_refused (e : Error) :
    file_accepted env req = false ->
    upload_case env req w
      (logged (console_error "Error:" e) w,
       json 500 (ErrorBody "Something went wrong!"))
| case_missing_fields :
    file_accepted env req = true ->
    fields_given req = false ->
    upload_case env req w
      (with_object env req w,
       json 400
         (ErrorBody "Missing required fields: title, artist, duration"))
| case_invalid :
    file_accepted env req = true ->
    fields_given req = true ->
    new_song env req (fresh_file env) = None ->
    upload_case env req w
      (logged (console_error "Upload error:" ValidationError)
         (with_object env req w),
       json 500 (ErrorWith "Error uploading song: " ValidationError))
| case_unreachable (s : Song) :
    file_accepted env req = true ->
    fields_given req = true ->
    new_song env req (fresh_file env) = Some s ->
    catalog_down env = true ->
    upload_case env req w
      (logged (console_error "Upload error:" MongoNetworkError)
         (with_object env req w),
       json 500 (ErrorWith "Error uploading song: " MongoNetworkError))
| case_duplicate (s : Song) :
    file_accepted env req = true ->
    fields_given req = true ->
    new_song env req (fresh_file env) = Some s ->
    catalog_down env = false ->
    clashes s (songs w) = true ->
    upload_case env req w
      (logged (console_error "Upload error:" (MongoServerError 11000))
         (with_object env req w),
       json 400 (ErrorBody "Song with this code already exists"))
| case_inserted (s : Song) :
    file_accepted env req = true ->
    fields_given req = true ->
    new_song env req (fresh_file env) = Some s ->
    catalog_down env = false ->
    clashes s (songs w) = false ->
    upload_case env req w
      (mkWorld (songs w ++ [s]) (uploads w ++ stored_object env req)
         (console_log "Song uploaded successfully:" (title s) :: console w),
       json 200
         (UploadedBody "Song uploaded successfully!" s (fresh_file env))).

(** What [parseInt] reads from the duration field. *)
Definition duration_read (req : UploadRequest) : option number :=
  ParseInt.parseInt (Text.toString (body_duration req)).

(** The row with a given id, as [findById] looks it up. *)
Definition song_with (id : ObjectId) (rows : list Song) : option Song :=
  find (fun r => N.eqb (_id r) id) rows.

(** The rows left when the row with a given id is removed. *)
Definition without (id : ObjectId) (rows : list Song) : list Song :=
  filter (fun r => negb (N.eqb (_id r) id)) rows.

(** The response after the given chunks were written to it. *)
Definition write_all (cs : list (list Byte.byte)) (res : Res) : Res :=
  fold_left (fun r c => res_write c r) cs res.

(** Some row of the catalogue already carries this short code. *)
Definition code_taken (code : string) (rows : list Song) : bool :=
  existsb (fun r => String.eqb (songcode r) code) rows.

Definition id_taken (id : ObjectId) (rows : list Song) : bool :=
  existsb (fun r => N.eqb (_id r) id) rows.


(** ** Sample data *)

Module Sample.

Fixpoint hex_value (acc : N) (l : list ascii) : option N :=
  match l with
  | [] => Some acc
  | c :: l' =>
      match ParseInt.digit_value 16 c with
      | Some d => hex_value (acc * 16 + Z.to_N d) l'
      | None => None
      end
  end.

(** A driver that reads object ids written as 24 hexadecimal digits. *)
Definition driver : Driver :=
  {| parseObjectId := fun s =>
       if Nat.eqb (String.length s) 24
       then hex_value 0 (Text.chars s) else None |}.

Definition blue_moon : Song :=
  mkSong 1%N "Blue Moon" "Miles" "c1" "Unknown Album" 200 (Some 101%N) 1000.

Definition sun : Song :=
  mkSong 2%N "Sun" "Blue Note Quartet" "c2" "Unknown Album" 180 (Some 102%N)
         2000.

(** A row whose file reference is missing. *)
Definition loose : Song :=
  mkSong 4%N "Loose" "Nobody" "c4" "Unknown Album" 10 None 3000.

Definition audio_of (id : ObjectId) : GridFile :=
  mkGridFile id "1000-a.mp3" [Byte.x49; Byte.x44; Byte.x33].

(** Two songs with their files. *)
Definition world : World :=
  mkWorld [blue_moon; sun] [audio_of 101%N; audio_of 102%N] [].

(** The file of [blue_moon] is gone from the bucket. *)
Definition world_orphan : World :=
  mkWorld [blue_moon; sun] [audio_of 102%N] [].

Definition world_loose : World :=
  mkWorld [blue_moon; loose] [audio_of 101%N] [].




(** The generator returns a fresh code on every call. *)
Definition env : Env :=
  mkEnv 5000 5001 103%N 3%N (fun n => if Nat.eqb n 0 then "c3" else "c9")
        false false None.

(** The generator returns the code of [blue_moon] first, then a free one. *)
Definition env_collision : Env :=
  mkEnv 5000 5001 103%N 3%N (fun n => if Nat.eqb n 0 then "c1" else "c9")
        false false None.

Definition env_storage_down : Env :=
  mkEnv 5000 5001 103%N 3%N (fun n => if Nat.eqb n 0 then "c3" else "c9")
        false true None.

Definition mp3 : FilePart :=
  mkFilePart "a.mp3" "audio/mpeg" [Byte.x49; Byte.x44; Byte.x33].

Definition text_file : FilePart :=
  mkFilePart "notes.txt" "text/plain" [Byte.x68; Byte.x69].

Definition request (duration : option string) : UploadRequest :=
  mkUploadRequest (Some mp3) (Some "Stars") (Some "Nova") None duration [].

Definition request_text : UploadRequest :=
  mkUploadRequest (Some text_file) (Some "Stars") (Some "Nova") None
                  (Some "180") [].

(** A file of two chunks, its row, and a read that fails on the second
    chunk. *)
Definition long_song : Song :=
  mkSong 6%N "Long" "Drone" "c6" "Unknown Album" 900 (Some 106%N) 4000.

Definition world_long : World :=
  mkWorld [long_song]
    [mkGridFile 106%N "4000-long.mp3" (repeat Byte.x00 (S chunkSizeBytes))]
    [].

Definition env_read_fails : Env :=
  mkEnv 5000 5001 103%N 3%N (fun n => if Nat.eqb n 0 then "c3" else "c9")
        false false (Some 1%nat).

(** Three uploads in a row, the clock advancing between them. *)
Definition env_at (t : Z) (file song : ObjectId) (code : string) : Env :=
  mkEnv t (t + 1) file song (fun _ => code) false false None.

Definition request_titled (t : string) : UploadRequest :=
  mkUploadRequest (Some mp3) (Some t) (Some "Nova") None (Some "180") [].

(** A duration field of [n] digits. *)
Definition nines (n : nat) : string :=
  string_of_list_ascii (repeat "9"%char n).

(** The upload with its file sent under the field name [file]. *)
Definition request_misnamed : UploadRequest :=
  mkUploadRequest None (Some "Stars") (Some "Nova") None (Some "180")
                  [("file", mp3)].

Definition after_three_uploads : World :=
  fst (POST_upload (env_at 7000 203%N 13%N "k3") (request_titled "C")
    (fst (POST_upload (env_at 6000 202%N 12%N "k2") (request_titled "B")
      (fst (POST_upload (env_at 5000 201%N 11%N "k1") (request_titled "A")
        (mkWorld [] [] [])))))).

Definition id_long : string := "000000000000000000000006".
Definition id_blue_moon : string := "000000000000000000000001".
Definition id_loose : string := "000000000000000000000004".
Definition id_unknown : string := "0000000000000000000000ff".

End Sample.

(** ** The browser client (the React components of the page)

    Object ids reach the client as text inside JSON; the client only
    compares them and sends them back, so they are kept as [ObjectId]. *)

Module Client.

(** [String.prototype.padStart(n, c)] with a filler of one character. *)
Definition padStart (n : nat) (c : ascii) (s : string) : string :=
  (string_of_list_ascii (repeat c (n - String.length s)) ++ s)%string.

(** [Number.MAX_SAFE_INTEGER]. *)
Definition MAX_SAFE_INTEGER : Z := 9007199254740991.

(** [formatDuration] of the song list, on the integers up to
    [MAX_SAFE_INTEGER] in size.  There the page's arithmetic is that of
    the integers: [seconds / 60] is rounded by less than 1/60, so
    [Math.floor] of it is the floored quotient; [seconds % 60] is the
    remainder with the sign of [seconds]; and [toString] prints all the
    digits.  On larger numbers the quotient is rounded further and
    [toString] goes over to the exponent form: no answer is given for
    them. *)
Definition formatDuration (seconds : Z) : option string :=
  if Z.abs seconds <=? MAX_SAFE_INTEGER then
    let minutes := seconds / 60 in
    let remainingSeconds := Z.rem seconds 60 in
    Some (Text.show_int minutes ++ ":"
          ++ padStart 2 "0" (Text.show_int remainingSeconds))%string
  else None.

(** The class [[^/.]] of the pattern in [handleFileChange]. *)
Definition extension_char (c : ascii) : bool :=
  negb (Ascii.eqb c "/" || Ascii.eqb c ".")%bool.

(** [name.replace(/\.[^/.]+$/, "")]: the pattern matches at a dot that
    is followed, up to the end of the name, by one or more characters
    that are neither a slash nor a dot; the name is cut at the leftmost
    such position. *)
Fixpoint strip_extension (name : list ascii) : list ascii :=
  match name with
  | [] => []
  | c :: rest =>
      if (Ascii.eqb c "."
          && match rest with [] => false | _ :: _ => true end
          && forallb extension_char rest)%bool
      then []
      else c :: strip_extension rest
  end.

(** [response.ok]. *)
Definition ok (r : Reply) : bool :=
  ((200 <=? status r) && (status r <=? 299))%bool.

(** [handleSongDelete] of [App]: the player lets go of the deleted
    song. *)
Definition handleSongDelete (deletedSongId : ObjectId)
    (currentSong : option Song) : option Song :=
  match currentSong with
  | Some s => if N.eqb (_id s) deletedSongId then None else currentSong
  | None => currentSong
  end.

(** The state of the [SongList] component. *)
Record SongList : Type := mkSongList {
  songs : list Song;
  loading : bool;
  searchTerm : string
}.

(** [handleDelete]: after the confirm dialog the request is sent
    ([deleteSong] is the server behind [api.deleteSong]); on an ok reply
    the song leaves the list and the parent is told, otherwise the list
    stays.  The second component is the call of [onSongDelete]. *)
Definition handleDelete (deleteSong : World -> World * Reply)
    (songId : ObjectId) (confirmed : bool) (st : SongList) (w : World)
  : World * (SongList * option ObjectId) :=
  if confirmed then
    let (w', r) := deleteSong w in
    if ok r
    then (w',
          (mkSongList
             (filter (fun song => negb (N.eqb (_id song) songId)) (songs st))
             (loading st) (searchTerm st),
           Some songId))
    else (w', (st, None))
  else (w, (st, None)).

(** The text inputs of the upload form. *)
Record FormData : Type := mkFormData {
  title : string;
  artist : string;
  album : string;
  duration : string
}.

(** The state of the [FileUpload] component. *)
Record FileUpload : Type := mkFileUpload {
  file : option FilePart;
  formData : FormData;
  uploading : bool;
  status : string
}.

(** [handleFileChange]: keeps the chosen file and, while the title is
    still empty, proposes the file name without its extension. *)
Definition handleFileChange (selectedFile : option FilePart)
    (st : FileUpload) : FileUpload :=
  let fd := formData st in
  match selectedFile with
  | Some f =>
      if negb (nonempty (title fd))
      then mkFileUpload selectedFile
             (mkFormData
                (string_of_list_ascii
                   (strip_extension (Text.chars (originalname f))))
                (artist fd) (album fd) (duration fd))
             (uploading st) (status st)
      else mkFileUpload selectedFile fd (uploading st) (status st)
  | None => mkFileUpload selectedFile fd (uploading st) (status st)
  end.

(** [formData.duration || '180']. *)
Definition duration_or_default (d : string) : string :=
  if nonempty d then d else "180".

(** [handleSubmit], up to the request: without a file, a title or an
    artist only the status line changes; otherwise the multipart request
    is built and sent. *)
Definition handleSubmit (st : FileUpload)
  : FileUpload * option UploadRequest :=
  let fd := formData st in
  match file st with
  | Some f =>
      if (negb (nonempty (title fd)) || negb (nonempty (artist fd)))%bool
      then
        (mkFileUpload (file st) fd (uploading st)
           "Please fill in all required fields and select a file",
         None)
      else
        (mkFileUpload (file st) fd true "",
         Some (mkUploadRequest (Some f) (Some (title fd)) (Some (artist fd))
                 (Some (album fd))
                 (Some (duration_or_default (duration fd))) []))
  | None =>
      (mkFileUpload (file st) fd (uploading st)
         "Please fill in all required fields and select a file",
       None)
  end.

End Client.

(** ** Further notions *)

(** No two rows share an [_id] or a short code: what the unique indexes
    of the collection stand for. *)
Definition unique_keys (rows : list Song) : Prop :=
  NoDup (map _id rows) /\ NoDup (map songcode rows).

(** The file with a given id, as the download stream looks it up. *)
Definition file_with (id : ObjectId) (fs : list GridFile) : option GridFile :=
  find (fun f => N.eqb (file_id f) id) fs.

(** The bucket without the file of a given id. *)
Definition without_file (id : ObjectId) (fs : list GridFile) : list GridFile :=
  filter (fun f => negb (N.eqb (file_id f) id)) fs.

(** The row that a well-formed upload inserts. *)
Definition uploaded_song (env : Env) (req : UploadRequest) (n : number)
  : Song :=
  mkSong (fresh_song env) (Text.toString (body_title req))
    (Text.toString (body_artist req)) (shortid env 0)
    (album_or_default (body_album req)) n (Some (fresh_file env))
    (now_created env).

(** An upload that nothing stands against: the file is accepted, the
    fields are given, the duration reads as [n], the catalogue can be
    reached and neither the short code nor the ids are in use. *)
Definition upload_goes_through (env : Env) (req : UploadRequest) (w : World)
    (n : number) : bool :=
  (file_accepted env req && fields_given req
   && match duration_read req with
      | Some m => number_eqb m n
      | None => false
      end
   && nonempty (shortid env 0) && negb (catalog_down env)
   && negb (code_taken (shortid env 0) (songs w))
   && negb (id_taken (fresh_song env) (songs w))
   && negb (has_file (fresh_file env) (uploads w)))%bool.

(** The decimal digit of a number below ten. *)
Definition digit (n : Z) : ascii := ascii_of_N (48 + Z.to_N n).

(** A request served without any infrastructure fault. *)
Definition healthy (env : Env) : bool :=
  (negb (catalog_down env) && negb (storage_down env)
   && match read_fails_after env with None => true | Some _ => false end)%bool.

(** * Properties *)

Local Open Scope list_scope.

(** ** Literal patterns *)

Section Literal.

Import RegExp.

Lemma lex_plain (l : list ascii) :
  forallb (fun c => negb (syntax_char c)) l = true ->
  lex l = Compiled (map TLit l).
Proof.
  induction l as [|c l IH]; simpl; intros H; [reflexivity|].
  apply andb_true_iff in H. destruct H as [Hc Hl].
  rewrite (IH Hl).
  assert (Hs : syntax_char c = false) by (destruct (syntax_char c); easy).
  pose proof Hs as Hs'.
  unfold syntax_char in Hs'. simpl in Hs'.
  repeat (apply orb_false_iff in Hs'; destruct Hs' as [? Hs']).
  repeat match goal with
         | E : Ascii.eqb c _ = false |- _ => rewrite E; clear E
         end.
  rewrite Hs. reflexivity.
Qed.

Lemma parse_literals (l : list ascii) :
  forall (cur : alternative) (st : after),
    parse (map TLit l) [] cur st = Some [rev cur ++ map lit l]%list.
Proof.
  induction l as [|c l IH]; intros cur st; simpl.
  - now rewrite app_nil_r.
  - rewrite IH. simpl. now rewrite <- app_assoc.
Qed.

Lemma compile_plain (s : string) :
  plain s = true ->
  compile s = Compiled [map lit (Text.chars s)].
Proof.
  intros H. unfold compile. rewrite (lex_plain _ H).
  now rewrite parse_literals.
Qed.

Lemma match_literals (s : list ascii) :
  forall (b : bool) (t : list ascii),
    match_terms (map lit s) b t = ci_prefix s t.
Proof.
  induction s as [|c s IH]; intros b t; simpl.
  - now destruct t.
  - destruct t as [|d t]; [reflexivity|]. now rewrite IH.
Qed.

Lemma search_literals (s t : list ascii) :
  forall b : bool, search_from [map lit s] b t = ci_infix s t.
Proof.
  induction t as [|d t IH]; intros b; simpl;
    rewrite match_literals, orb_false_r; [reflexivity|].
  now rewrite IH.
Qed.

Lemma test_plain (s t : string) :
  test [map lit (Text.chars s)] t = ci_substring s t.
Proof. apply search_literals. Qed.

End Literal.

Lemma same_letter_eq (c d : ascii) :
  Text.same_letter c d = true <-> Text.upper c = Text.upper d.
Proof. apply Ascii.eqb_eq. Qed.

Lemma ci_prefix_spec (s t : list ascii) :
  ci_prefix s t = true <->
  exists post, Text.upcase t = (Text.upcase s ++ post)%list.
Proof.
  revert t. induction s as [|c s IH]; intros t; simpl.
  - split; [intros _; now exists (Text.upcase t) | reflexivity].
  - destruct t as [|d t]; simpl.
    + split; [discriminate | intros [post H]; discriminate].
    + rewrite andb_true_iff, same_letter_eq, IH. split.
      * intros [E [post H]]. exists post. now rewrite E, H.
      * intros [post H]. injection H as E H. split; [now symmetry|].
        now exists post.
Qed.

Lemma ci_infix_spec (s t : list ascii) :
  ci_infix s t = true <->
  exists pre post, Text.upcase t = (pre ++ Text.upcase s ++ post)%list.
Proof.
  induction t as [|d t IH]; simpl.
  - rewrite orb_false_r, ci_prefix_spec. split.
    + intros [post H]. now exists [], post.
    + intros [pre [post H]]. destruct pre; [now exists post|discriminate].
  - rewrite orb_true_iff, ci_prefix_spec, IH. split.
    + intros [[post H] | [pre [post H]]].
      * now exists [], post.
      * exists (Text.upper d :: pre), post. simpl. now rewrite H.
    + intros [pre [post H]]. destruct pre as [|p pre].
      * left. now exists post.
      * right. injection H as _ H. now exists pre, post.
Qed.

Lemma ci_substring_occurs (s t : string) :
  ci_substring s t = true <-> ci_occurs s t.
Proof. apply ci_infix_spec. Qed.

(** ** The sorted query *)

Lemma insert_newest_perm (s : Song) (rows : list Song) :
  Permutation (insert_newest s rows) (s :: rows).
Proof.
  induction rows as [|r rows IH]; simpl; [reflexivity|].
  destruct (createdAt r <=? createdAt s); [reflexivity|].
  rewrite IH. apply perm_swap.
Qed.

Lemma sort_newest_perm (rows : list Song) :
  Permutation (sort_newest rows) rows.
Proof.
  induction rows as [|r rows IH]; simpl; [reflexivity|].
  rewrite insert_newest_perm. now constructor.
Qed.

Lemma insert_newest_sorted (s : Song) (rows : list Song) :
  newest_first rows -> newest_first (insert_newest s rows).
Proof.
  unfold newest_first.
  induction rows as [|r rows IH]; simpl; intros H.
  - repeat constructor.
  - apply StronglySorted_inv in H. destruct H as [Hs Hr].
    destruct (createdAt r <=? createdAt s) eqn:E.
    + apply Z.leb_le in E. constructor.
      * now constructor.
      * constructor; [exact E|].
        eapply Forall_impl; [|exact Hr]. simpl. intros; lia.
    + apply Z.leb_gt in E. constructor; [now apply IH|].
      rewrite insert_newest_perm. constructor; [lia | exact Hr].
Qed.

Lemma sort_newest_sorted (rows : list Song) : newest_first (sort_newest rows).
Proof.
  induction rows as [|r rows IH]; simpl.
  - constructor.
  - now apply insert_newest_sorted.
Qed.

(** The query always has an answer. *)
Lemma find_sorted_answer (catalog : list Song) (keep : Song -> bool) :
  find_sorted catalog keep (sort_newest (filter keep catalog)).
Proof. split; [apply sort_newest_perm | apply sort_newest_sorted]. Qed.

(** With creation times that differ, the order is forced. *)
Lemma newest_first_unique (l1 l2 : list Song) :
  StronglySorted (fun a b => createdAt b < createdAt a) l1 ->
  newest_first l2 ->
  Permutation l2 l1 ->
  l2 = l1.
Proof.
  unfold newest_first. revert l2.
  induction l1 as [|a l1 IH]; intros l2 H1 H2 P.
  - symmetry in P. now apply Permutation_nil in P.
  - destruct l2 as [|b l2].
    + now apply Permutation_nil in P.
    + apply StronglySorted_inv in H1. destruct H1 as [S1 F1].
      apply StronglySorted_inv in H2. destruct H2 as [S2 F2].
      assert (E : b = a).
      { assert (Ia : In a (b :: l2)).
        { apply Permutation_in with (a :: l1);
            [now symmetry | now left]. }
        assert (Ib : In b (a :: l1)).
        { apply Permutation_in with (b :: l2); [exact P | now left]. }
        destruct Ia as [Ia | Ia]; [exact Ia|].
        destruct Ib as [Ib | Ib]; [now symmetry|].
        rewrite Forall_forall in F1, F2.
        specialize (F1 _ Ib). specialize (F2 _ Ia). lia. }
      subst b. f_equal. apply IH; auto.
      now apply Permutation_cons_inv with a.
Qed.

Lemma oldest_first_rev (l : list Song) :
  StronglySorted (fun a b => createdAt a < createdAt b) l ->
  StronglySorted (fun a b => createdAt b < createdAt a) (rev l).
Proof.
  induction l as [|a l IH]; simpl; intros H; [constructor|].
  apply StronglySorted_inv in H. destruct H as [S F].
  specialize (IH S). apply Forall_rev in F.
  induction IH as [|b m Hm IHm Hb]; simpl.
  - repeat constructor.
  - apply Forall_cons_iff in F. destruct F as [Fb Fm]. constructor.
    + now apply IHm.
    + apply Forall_app. split; [exact Hb|]. now repeat constructor.
Qed.

Lemma filter_all (l : list Song) : filter (fun _ => true) l = l.
Proof. induction l; simpl; congruence. Qed.

(** ** GET /api/songs: search *)

Lemma search_filter_plain (s : string) :
  nonempty s = true -> plain s = true ->
  exists keep,
    search_filter (Some s) = RegExp.Compiled keep
    /\ forall r, keep r = mentions s r.
Proof.
  intros Hn Hp. destruct s as [|c s]; [discriminate|].
  unfold search_filter. rewrite (compile_plain _ Hp).
  eexists. split; [reflexivity|].
  intros r. unfold mentions. now rewrite !test_plain.
Qed.

Lemma mentions_occurs (s : string) (r : Song) :
  mentions s r = true <->
  ci_occurs s (title r) \/ ci_occurs s (artist r) \/ ci_occurs s (album r).
Proof.
  unfold mentions.
  rewrite !orb_true_iff, !ci_substring_occurs. tauto.
Qed.

(** C4, as the code has it: for a non-empty search string without
    syntax characters the list operation answers 200 with exactly the
    Songs in which the string occurs, case ignored, in the title, the
    artist or the album.  A string with syntax characters is read as a
    pattern instead. *)
Theorem search_plain_is_substring (env : Env) (s : string) (w : World) :
  nonempty s = true ->
  plain s = true ->
  catalog_down env = false ->
  (exists out, GET_songs env (Some s) w out)
  /\ forall out, GET_songs env (Some s) w out ->
       exists rows,
         out = (w, json 200 (SongsBody rows))
         /\ Permutation rows (filter (mentions s) (songs w))
         /\ forall r, In r rows <->
              In r (songs w)
              /\ (ci_occurs s (title r) \/ ci_occurs s (artist r)
                  \/ ci_occurs s (album r)).
Proof.
  intros Hn Hp Hup.
  destruct (search_filter_plain s Hn Hp) as [keep [Hk Hm]].
  split.
  - eexists. eapply songs_found; [exact Hk | exact Hup |].
    apply find_sorted_answer.
  - intros out H.
    inversion H as [keep' rows Hk' _ [P _] | Hk' | keep' _ Hd
                   | keep' rows Hk' | e Hk'];
      subst; try congruence.
    rewrite Hk in Hk'. injection Hk' as <-.
    rewrite (filter_ext _ _ Hm) in P.
    exists rows. split; [reflexivity|]. split; [exact P|].
    intros r. rewrite <- mentions_occurs, <- filter_In. split.
    + now apply Permutation_in.
    + apply Permutation_in. now symmetry.
Qed.

Lemma search_plain_witness :
  nonempty "MOON" = true /\ plain "MOON" = true
  /\ catalog_down Sample.env = false
  /\ filter (mentions "MOON") (songs Sample.world) = [Sample.blue_moon]
  /\ forall out, GET_songs Sample.env (Some "MOON") Sample.world out ->
       exists rows,
         out = (Sample.world, json 200 (SongsBody rows))
         /\ Permutation rows (filter (mentions "MOON") (songs Sample.world))
         /\ forall r, In r rows <->
              In r (songs Sample.world)
              /\ (ci_occurs "MOON" (title r) \/ ci_occurs "MOON" (artist r)
                  \/ ci_occurs "MOON" (album r)).
Proof.
  repeat (split; [reflexivity|]).
  apply (search_plain_is_substring Sample.env "MOON" Sample.world);
    reflexivity.
Defined.

(** C4 as stated fails: the search string is a pattern, so ["."]
    selects every Song with a non-empty field although no field
    contains a dot. *)
Lemma search_dot_matches_everything :
  nonempty "." = true
  /\ GET_songs Sample.env (Some ".") Sample.world
       (Sample.world, json 200 (SongsBody [Sample.sun; Sample.blue_moon]))
  /\ filter (mentions ".") (songs Sample.world) = []
  /\ ~ (ci_occurs "." (title Sample.sun) \/ ci_occurs "." (artist Sample.sun)
        \/ ci_occurs "." (album Sample.sun)).
Proof.
  split; [reflexivity|]. split; [|split; [reflexivity|]].
  - eapply songs_found; [reflexivity | reflexivity |].
    split.
    + simpl. apply perm_swap.
    + repeat constructor; simpl; lia.
  - rewrite <- mentions_occurs. discriminate.
Qed.

(** A quantifier with nothing to repeat is a syntax error of the
    constructor: the request is answered 500. *)
Example search_star_is_error :
  GET_songs Sample.env (Some "*") Sample.world
    (mkWorld (songs Sample.world) (uploads Sample.world)
       [console_error "Error fetching songs:" RegExpSyntaxError],
     json 500 (ErrorBody "Server error")).
Proof. apply songs_bad_pattern. reflexivity. Qed.

Example search_blue :
  filter (mentions "blue") [Sample.blue_moon; Sample.sun]
  = [Sample.blue_moon; Sample.sun].
Proof. reflexivity. Qed.

(** ** GET /api/songs: order *)

Lemma GET_songs_rows (env : Env) (search : option string) (w w' : World)
    (rows : list Song) :
  GET_songs env search w (w', json 200 (SongsBody rows)) ->
  exists keep,
    find_sorted (songs w) keep rows
    /\ forall k, search_filter search = RegExp.Compiled k -> k = keep.
Proof.
  intros H. inversion H; subst; exists keep; (split; [assumption|]);
    intros k Hk; congruence.
Qed.






(** The function answers what the query asks for. *)
Lemma list_songs_meets_query (env : Env) (search : option string)
    (w : World) (out : World * Reply) :
  list_songs env search w = RegExp.Compiled out ->
  GET_songs env search w out.
Proof.
  unfold list_songs.
  destruct (search_filter search) as [keep| |] eqn:E; [| |discriminate].
  - destruct (catalog_down env) eqn:Hd; intros H; injection H as <-.
    + now apply songs_unreachable with keep.
    + apply songs_found with keep; auto. apply find_sorted_answer.
  - intros H. injection H as <-. now apply songs_bad_pattern.
Qed.



(** ** GET /api/songs: the empty search string *)

(** C10: a list request whose search parameter is the empty string
    behaves exactly like one without the parameter; no filter is applied
    and the whole catalogue is answered, newest first. *)
Theorem empty_search_is_no_search (env : Env) (w : World) :
  (forall out, GET_songs env (Some "") w out <-> GET_songs env None w out)
  /\ (catalog_down env = false ->
      (exists out, GET_songs env (Some "") w out)
      /\ forall out, GET_songs env (Some "") w out ->
           exists rows,
             out = (w, json 200 (SongsBody rows))
             /\ Permutation rows (songs w)
             /\ newest_first rows).
Proof.
  split.
  - intros out. split; intros H; inversion H; subst;
      solve [ eapply songs_found; eauto
            | eapply songs_bad_pattern; eauto
            | eapply songs_unreachable; eauto
            | discriminate ].
  - intros Hup. split.
    + eexists. eapply songs_found; [reflexivity | exact Hup |].
      apply find_sorted_answer.
    + intros out H.
      inversion H as [keep rows Hk _ [P S] | Hk | keep Hk Hd
                     | keep rows Hk | e Hk]; subst;
        try discriminate; try congruence.
      injection Hk as <-. rewrite filter_all in P.
      now exists rows.
Qed.

Lemma empty_search_witness :
  catalog_down Sample.env = false
  /\ forall out, GET_songs Sample.env (Some "") Sample.world out ->
       exists rows,
         out = (Sample.world, json 200 (SongsBody rows))
         /\ Permutation rows [Sample.blue_moon; Sample.sun]
         /\ newest_first rows.
Proof.
  split; [reflexivity|].
  apply (proj2 (empty_search_is_no_search Sample.env Sample.world) eq_refl).
Defined.

(** ** POST /api/upload *)

Ltac run_upload :=
  unfold POST_upload, route, upload_handler, upload_single, expect_no_more,
    Song_save, validate, fileFilter, error_middleware, say, modify, get,
    try_catch, bind, ret, throw in *.

(** The multer stage stores the object of an accepted file. *)
Lemma upload_single_accepted (env : Env) (req : UploadRequest) (w : World) :
  file_accepted env req = true ->
  upload_single env req w
  = (mkWorld (songs w) (uploads w ++ stored_object env req) (console w),
     inr (Some (fresh_file env))).
Proof.
  unfold file_accepted, stored_object. run_upload.
  destruct (audioFile req) as [file|]; [|discriminate].
  intros H. apply andb_true_iff in H. destruct H as [H Hfit].
  apply andb_true_iff in H. destruct H as [H Ho].
  apply andb_true_iff in H. destruct H as [H Hs].
  apply andb_true_iff in H. destruct H as [Ha Hz].
  rewrite Ha, Hfit. apply Z.leb_le in Hz.
  destruct (fileSize <? _) eqn:E; [apply Z.ltb_lt in E; lia|].
  destruct (storage_down env); [discriminate|].
  destruct (otherFiles req); [reflexivity | discriminate].
Qed.


Lemma upload_single_rejected (env : Env) (req : UploadRequest) (w : World) :
  file_accepted env req = false ->
  exists x,
    upload_single env req w = (w, x)
    /\ (x = inr None \/ exists e, x = inl e).
Proof.
  unfold file_accepted. run_upload.
  destruct (audioFile req) as [file|];
    [|intros _; destruct (otherFiles req), (fields_fit req); eexists; eauto].
  destruct (Text.startsWith (mimetype file) "audio/"); simpl;
    [|intros _; eexists; eauto].
  destruct (fileSize <? _) eqn:E; [intros _; eexists; eauto|].
  apply Z.ltb_ge in E. apply Z.leb_le in E. rewrite E. simpl.
  destruct (storage_down env); [intros _; eexists; eauto|].
  destruct (otherFiles req); [|intros _; eexists; eauto].
  destruct (fields_fit req); [discriminate | intros _; eexists; eauto].
Qed.

Lemma missing_fields_test (req : UploadRequest) :
  (negb (Text.truthy (body_title req)) || negb (Text.truthy (body_artist req))
   || negb (Text.truthy (body_duration req)))%bool
  = negb (fields_given req).
Proof.
  unfold fields_given.
  destruct (Text.truthy (body_title req)), (Text.truthy (body_artist req)),
    (Text.truthy (body_duration req)); reflexivity.
Qed.

Lemma handler_no_file (env : Env) (req : UploadRequest) (w : World) :
  upload_handler env req None w
  = (w, inr (json 400 (ErrorBody "No file uploaded"))).
Proof. reflexivity. Qed.

Lemma handler_missing_fields (env : Env) (req : UploadRequest)
    (fid : ObjectId) (w : World) :
  fields_given req = false ->
  upload_handler env req (Some fid) w
  = (w, inr (json 400
               (ErrorBody "Missing required fields: title, artist, duration"))).
Proof.
  intros Hf. unfold upload_handler, try_catch.
  rewrite missing_fields_test, Hf. reflexivity.
Qed.

Lemma handler_invalid (env : Env) (req : UploadRequest) (fid : ObjectId)
    (w : World) :
  fields_given req = true ->
  new_song env req fid = None ->
  upload_handler env req (Some fid) w
  = (logged (console_error "Upload error:" ValidationError) w,
     inr (json 500 (ErrorWith "Error uploading song: " ValidationError))).
Proof.
  intros Hf E. unfold upload_handler, Song_save, try_catch, bind.
  rewrite missing_fields_test, Hf. cbn [negb].
  fold (new_song env req fid). rewrite E. reflexivity.
Qed.

Lemma handler_unreachable (env : Env) (req : UploadRequest) (fid : ObjectId)
    (w : World) (s : Song) :
  fields_given req = true ->
  new_song env req fid = Some s ->
  catalog_down env = true ->
  upload_handler env req (Some fid) w
  = (logged (console_error "Upload error:" MongoNetworkError) w,
     inr (json 500 (ErrorWith "Error uploading song: " MongoNetworkError))).
Proof.
  intros Hf E Hdown. unfold upload_handler, Song_save, try_catch, bind.
  rewrite missing_fields_test, Hf. cbn [negb].
  fold (new_song env req fid). rewrite E, Hdown. reflexivity.
Qed.

Lemma handler_duplicate (env : Env) (req : UploadRequest) (fid : ObjectId)
    (w : World) (s : Song) :
  fields_given req = true ->
  new_song env req fid = Some s ->
  catalog_down env = false ->
  clashes s (songs w) = true ->
  upload_handler env req (Some fid) w
  = (logged (console_error "Upload error:" (MongoServerError 11000)) w,
     inr (json 400 (ErrorBody "Song with this code already exists"))).
Proof.
  intros Hf E Hup Hc. unfold upload_handler, Song_save, try_catch, bind.
  rewrite missing_fields_test, Hf. cbn [negb].
  fold (new_song env req fid). rewrite E, Hup. unfold get. simpl.
  rewrite Hc. reflexivity.
Qed.

Lemma handler_inserts (env : Env) (req : UploadRequest) (fid : ObjectId)
    (w : World) (s : Song) :
  fields_given req = true ->
  new_song env req fid = Some s ->
  catalog_down env = false ->
  clashes s (songs w) = false ->
  upload_handler env req (Some fid) w
  = (mkWorld (songs w ++ [s]) (uploads w)
       (console_log "Song uploaded successfully:" (title s) :: console w),
     inr (json 200 (UploadedBody "Song uploaded successfully!" s fid))).
Proof.
  intros Hf E Hup Hc. unfold upload_handler, Song_save, try_catch, bind.
  rewrite missing_fields_test, Hf. cbn [negb].
  fold (new_song env req fid). rewrite E, Hup. unfold get. simpl.
  rewrite Hc. reflexivity.
Qed.

Lemma POST_upload_run (env : Env) (req : UploadRequest) (w : World) :
  POST_upload env req w
  = match upload_single env req w with
    | (w1, inr file) =>
        match upload_handler env req file w1 with
        | (w2, inr r) => (w2, r)
        | (w2, inl e) =>
            (logged (console_error "Error:" e) w2,
             json 500 (ErrorBody "Something went wrong!"))
        end
    | (w1, inl e) =>
        (logged (console_error "Error:" e) w1,
         json 500 (ErrorBody "Something went wrong!"))
    end.
Proof.
  unfold POST_upload, route, try_catch, bind.
  destruct (upload_single env req w) as [w1 [e|file]]; [reflexivity|].
  destruct (upload_handler env req file w1) as [w2 [e|r]]; reflexivity.
Qed.

(** Every upload ends in one of the listed ways. *)
Lemma upload_by_cases (env : Env) (req : UploadRequest) (w : World) :
  upload_case env req w (POST_upload env req w).
Proof.
  rewrite POST_upload_run.
  destruct (file_accepted env req) eqn:Hacc.
  - rewrite (upload_single_accepted env req w Hacc).
    fold (with_object env req w).
    destruct (fields_given req) eqn:Hf.
    + destruct (new_song env req (fresh_file env)) as [s|] eqn:Hs.
      * destruct (catalog_down env) eqn:Hd.
        -- rewrite (handler_unreachable env req _ _ Hf Hs Hd).
           now apply case_unreachable with s.
        -- destruct (clashes s (songs w)) eqn:Hc.
           ++ rewrite (handler_duplicate env req _ (with_object env req w)
                         Hf Hs Hd Hc).
              now apply case_duplicate with s.
           ++ rewrite (handler_inserts env req _ (with_object env req w)
                         Hf Hs Hd Hc).
              simpl. now apply case_inserted.
      * rewrite (handler_invalid env req _ _ Hf Hs).
        now apply case_invalid.
    + rewrite (handler_missing_fields env _ _ _ Hf).
      now apply case_missing_fields.
  - destruct (upload_single_rejected env req w Hacc) as [x [Hx Hk]].
    rewrite Hx. destruct Hk as [-> | [e ->]].
    + rewrite handler_no_file.
      unfold file_accepted in Hacc.
      unfold upload_single, expect_no_more, fileFilter in Hx.
      destruct (audioFile req) as [file|] eqn:Hfile.
      * destruct (Text.startsWith _ _); [|discriminate].
        destruct (fileSize <? _) eqn:Hz; [discriminate|].
        apply Z.ltb_ge in Hz. apply Z.leb_le in Hz. rewrite Hz in Hacc.
        destruct (storage_down env); [discriminate|].
        destruct (otherFiles req); [|discriminate].
        destruct (fields_fit req); discriminate.
      * destruct (otherFiles req) eqn:Ho; [|discriminate].
        destruct (fields_fit req) eqn:Hfit; [|discriminate].
        now apply case_no_file.
    + now apply case_refused.
Qed.

Lemma new_song_fields (env : Env) (req : UploadRequest) (fid : ObjectId)
    (s : Song) :
  new_song env req fid = Some s ->
  duration_read req = Some (duration s)
  /\ songcode s = shortid env 0
  /\ _id s = fresh_song env
  /\ fileId s = Some fid
  /\ createdAt s = now_created env.
Proof.
  unfold new_song, duration_read, validate. cbn [d_title d_artist d_duration].
  destruct (body_title req) as [t|]; [|discriminate].
  destruct (body_artist req) as [a|]; [|discriminate].
  destruct (ParseInt.parseInt _) as [n|]; [|discriminate].
  destruct (_ && _)%bool; [|discriminate].
  intros H. injection H as <-. simpl. auto.
Qed.

Lemma new_song_valid (env : Env) (req : UploadRequest) (fid : ObjectId)
    (n : number) :
  fields_given req = true ->
  duration_read req = Some n ->
  nonempty (shortid env 0) = true ->
  exists s, new_song env req fid = Some s.
Proof.
  unfold fields_given, new_song, duration_read, validate.
  cbn [d_title d_artist d_duration].
  destruct (body_title req) as [[|c1 t]|]; try discriminate.
  destruct (body_artist req) as [[|c2 a]|]; try discriminate.
  intros _ -> ->. simpl. eauto.
Qed.

Lemma code_taken_clashes (s : Song) (rows : list Song) :
  code_taken (songcode s) rows = true -> clashes s rows = true.
Proof.
  unfold code_taken, clashes. rewrite !existsb_exists.
  intros [r [Hin E]]. exists r. split; [exact Hin|].
  rewrite E. apply orb_true_r.
Qed.

Lemma has_file_stored (env : Env) (req : UploadRequest) (fs : list GridFile) :
  file_accepted env req = true ->
  has_file (fresh_file env) (fs ++ stored_object env req) = true.
Proof.
  unfold file_accepted, stored_object, has_file.
  destruct (audioFile req) as [file|]; [|discriminate]. intros _.
  rewrite existsb_app. simpl. rewrite N.eqb_refl. apply orb_true_r.
Qed.

(** C1, as the code has it: when an upload fails after its binary was
    stored, no Song row is added, and the stored object stays in the
    bucket; the handler does not delete it. *)
Theorem failed_upload_keeps_object (env : Env) (req : UploadRequest)
    (w w' : World) (r : Reply) :
  file_accepted env req = true ->
  POST_upload env req w = (w', r) ->
  status r <> 200 ->
  songs w' = songs w
  /\ uploads w' = uploads w ++ stored_object env req
  /\ has_file (fresh_file env) (uploads w') = true.
Proof.
  intros Hacc Hrun Hfail.
  pose proof (upload_by_cases env req w) as C. rewrite Hrun in C.
  assert (songs w' = songs w
          /\ uploads w' = uploads w ++ stored_object env req) as [Hs Hu].
  { inversion C; subst; simpl in *; try congruence; auto.
    unfold file_accepted in Hacc.
    match goal with H : audioFile req = None |- _ => rewrite H in Hacc end.
    discriminate. }
  repeat split; [exact Hs | exact Hu |].
  rewrite Hu. now apply has_file_stored.
Qed.

Lemma failed_upload_keeps_object_witness :
  file_accepted Sample.env_collision (Sample.request (Some "180")) = true
  /\ status (snd (POST_upload Sample.env_collision
                    (Sample.request (Some "180")) Sample.world)) <> 200
  /\ songs (fst (POST_upload Sample.env_collision
                   (Sample.request (Some "180")) Sample.world))
     = songs Sample.world
  /\ has_file 103%N
       (uploads (fst (POST_upload Sample.env_collision
                        (Sample.request (Some "180")) Sample.world)))
     = true.
Proof.
  split; [reflexivity|]. split; [discriminate|].
  destruct (failed_upload_keeps_object Sample.env_collision
              (Sample.request (Some "180")) Sample.world
              (w' := fst (POST_upload Sample.env_collision
                            (Sample.request (Some "180")) Sample.world))
              (r := snd (POST_upload Sample.env_collision
                           (Sample.request (Some "180")) Sample.world)))
    as [Hs [_ Hf]]; [reflexivity | reflexivity | discriminate |].
  split; [exact Hs | exact Hf].
Defined.

(** C1 as stated fails: the upload below is refused for a duplicate
    short code after its binary was stored, and the bucket holds one
    object more than before. *)
Lemma duplicate_upload_leaves_object :
  file_accepted Sample.env_collision (Sample.request (Some "180")) = true
  /\ snd (POST_upload Sample.env_collision (Sample.request (Some "180"))
            Sample.world)
     = json 400 (ErrorBody "Song with this code already exists")
  /\ has_file 103%N (uploads Sample.world) = false
  /\ has_file 103%N
       (uploads (fst (POST_upload Sample.env_collision
                        (Sample.request (Some "180")) Sample.world)))
     = true
  /\ uploads (fst (POST_upload Sample.env_collision
                     (Sample.request (Some "180")) Sample.world))
     <> uploads Sample.world.
Proof.
  repeat (split; [reflexivity|]). discriminate.
Qed.

(** C2, as the code has it: an upload whose file does not declare an
    [audio/] content type is refused by the file filter; the error goes
    to the error-handling middleware, which answers 500, and nothing is
    stored. *)
Theorem non_audio_upload_is_500 (env : Env) (req : UploadRequest)
    (w : World) (file : FilePart) :
  audioFile req = Some file ->
  Text.startsWith (mimetype file) "audio/" = false ->
  POST_upload env req w
  = (logged (console_error "Error:" OnlyAudioAllowed) w,
     json 500 (ErrorBody "Something went wrong!")).
Proof.
  intros Hfile Htype. rewrite POST_upload_run.
  unfold upload_single, fileFilter. rewrite Hfile, Htype. reflexivity.
Qed.

Lemma non_audio_upload_witness :
  audioFile Sample.request_text = Some Sample.text_file
  /\ Text.startsWith (mimetype Sample.text_file) "audio/" = false
  /\ POST_upload Sample.env Sample.request_text Sample.world
     = (logged (console_error "Error:" OnlyAudioAllowed) Sample.world,
        json 500 (ErrorBody "Something went wrong!")).
Proof.
  split; [reflexivity|]. split; [reflexivity|].
  apply (non_audio_upload_is_500 Sample.env Sample.request_text Sample.world
           (file := Sample.text_file)); reflexivity.
Defined.

(** C2 as stated fails: a [text/plain] upload is answered 500, not 400. *)
Lemma text_upload_not_400 :
  Text.startsWith (mimetype Sample.text_file) "audio/" = false
  /\ status (snd (POST_upload Sample.env Sample.request_text Sample.world))
     = 500
  /\ status (snd (POST_upload Sample.env Sample.request_text Sample.world))
     <> 400.
Proof.
  split; [reflexivity|]. split; [reflexivity | discriminate].
Qed.

(** C3, as the code has it: the short code is generated once; when it
    is already taken the insert fails with a duplicate-key error and the
    upload is answered 400 at once, whatever the generator would return
    next.  No row is added. *)
Theorem collision_fails_upload (env : Env) (req : UploadRequest) (w : World)
    (n : number) :
  file_accepted env req = true ->
  fields_given req = true ->
  duration_read req = Some n ->
  nonempty (shortid env 0) = true ->
  catalog_down env = false ->
  code_taken (shortid env 0) (songs w) = true ->
  POST_upload env req w
  = (logged (console_error "Upload error:" (MongoServerError 11000))
       (with_object env req w),
     json 400 (ErrorBody "Song with this code already exists")).
Proof.
  intros Hacc Hf Hd Hcode Hup Htaken.
  destruct (new_song_valid env req (fresh_file env) Hf Hd Hcode) as [s Hs].
  destruct (new_song_fields _ _ _ Hs) as (_ & Hc & _).
  rewrite <- Hc in Htaken. apply code_taken_clashes in Htaken.
  rewrite POST_upload_run, (upload_single_accepted env req w Hacc).
  fold (with_object env req w).
  now rewrite (handler_duplicate env req _ (with_object env req w)
                 Hf Hs Hup Htaken).
Qed.

Lemma collision_fails_upload_witness :
  code_taken (shortid Sample.env_collision 0) (songs Sample.world) = true
  /\ POST_upload Sample.env_collision (Sample.request (Some "180"))
       Sample.world
     = (logged (console_error "Upload error:" (MongoServerError 11000))
          (with_object Sample.env_collision (Sample.request (Some "180"))
             Sample.world),
        json 400 (ErrorBody "Song with this code already exists")).
Proof.
  split; [reflexivity|].
  apply (collision_fails_upload Sample.env_collision
           (Sample.request (Some "180")) Sample.world (n := 180));
    reflexivity.
Defined.

(** C3 as stated fails: the first code collides, the next code of the
    generator is free, and still the upload is answered 400 with no row
    added: there is no second attempt. *)
Lemma single_collision_fails :
  code_taken (shortid Sample.env_collision 0) (songs Sample.world) = true
  /\ code_taken (shortid Sample.env_collision 1) (songs Sample.world) = false
  /\ snd (POST_upload Sample.env_collision (Sample.request (Some "180"))
            Sample.world)
     = json 400 (ErrorBody "Song with this code already exists")
  /\ songs (fst (POST_upload Sample.env_collision
                   (Sample.request (Some "180")) Sample.world))
     = songs Sample.world.
Proof. repeat split. Qed.

(** ** GET /api/songs/:songId/audio *)

Lemma GET_audio_found (drv : Driver) (env : Env) (songId : string)
    (w : World) (id fid : ObjectId) (s : Song) :
  parseObjectId drv songId = Some id ->
  catalog_down env = false ->
  song_with id (songs w) = Some s ->
  fileId s = Some fid ->
  GET_audio drv env songId w
  = pipe (openDownloadStream env w fid) w (res_set audio_headers new_res).
Proof.
  intros Hid Hup Hs Hf. unfold GET_audio, Song_findById, bind, get, ret.
  unfold song_with in Hs. rewrite Hid, Hup, Hs.
  destruct s; simpl in Hf. now rewrite Hf.
Qed.

(** C8: a stream request with an id that is not an object id is
    answered 400; with the catalogue reachable, a request for an id that
    no Song has, or whose Song has no file reference, is answered 404
    and no byte of a body has been written. *)
Theorem stream_request_errors (drv : Driver) (env : Env) (songId : string)
    (w : World) :
  (parseObjectId drv songId = None ->
   GET_audio drv env songId w
   = (w, res_json 400 (ErrorBody "Invalid song ID") new_res))
  /\ (forall id,
        parseObjectId drv songId = Some id ->
        catalog_down env = false ->
        song_with id (songs w) = None
        \/ (exists s, song_with id (songs w) = Some s /\ fileId s = None) ->
        GET_audio drv env songId w
        = (w, res_json 404 (ErrorBody "Song or audio file not found") new_res)
        /\ statusCode (snd (GET_audio drv env songId w)) = 404
        /\ written (snd (GET_audio drv env songId w)) = []).
Proof.
  split.
  - intros Hid. unfold GET_audio. now rewrite Hid.
  - intros id Hid Hup Hs.
    assert (E : GET_audio drv env songId w
                = (w, res_json 404 (ErrorBody "Song or audio file not found")
                        new_res)).
    { unfold GET_audio, Song_findById, bind, get, ret.
      unfold song_with in Hs. rewrite Hid, Hup.
      destruct Hs as [-> | [s [-> Hf]]]; [reflexivity|].
      destruct s; simpl in Hf. now rewrite Hf. }
    rewrite E. auto.
Qed.

Lemma stream_request_errors_witness :
  statusCode (snd (GET_audio Sample.driver Sample.env "not-an-id"
                     Sample.world)) = 400
  /\ statusCode (snd (GET_audio Sample.driver Sample.env Sample.id_unknown
                        Sample.world)) = 404
  /\ GET_audio Sample.driver Sample.env Sample.id_loose Sample.world_loose
     = (Sample.world_loose,
        res_json 404 (ErrorBody "Song or audio file not found") new_res).
Proof.
  split; [|split].
  - now rewrite (proj1 (stream_request_errors Sample.driver Sample.env
                          "not-an-id" Sample.world) eq_refl).
  - apply (proj2 (stream_request_errors Sample.driver Sample.env
                    Sample.id_unknown Sample.world) 255%N eq_refl eq_refl).
    left. reflexivity.
  - apply (proj2 (stream_request_errors Sample.driver Sample.env
                    Sample.id_loose Sample.world_loose) 4%N eq_refl eq_refl).
    right. exists Sample.loose. split; reflexivity.
Defined.

Lemma write_all_fields (cs : list (list Byte.byte)) (res : Res) :
  statusCode (write_all cs res) = statusCode res
  /\ written (write_all cs res) = written res ++ cs
  /\ payload (write_all cs res) = payload res
  /\ finished (write_all cs res) = finished res
  /\ (cs <> [] -> headersSent (write_all cs res) = true)
  /\ (cs = [] -> write_all cs res = res).
Proof.
  revert res. induction cs as [|c cs IH]; intros res; simpl.
  - rewrite app_nil_r. repeat split; auto; congruence.
  - destruct (IH (res_write c res)) as (H1 & H2 & H3 & H4 & H5 & H6).
    rewrite H1, H2, H3, H4. simpl. rewrite <- app_assoc.
    repeat split; auto; [|discriminate].
    intros _. destruct cs as [|c' cs]; [now rewrite H6 | apply H5; discriminate].
Qed.

Lemma pipe_data (cs : list (list Byte.byte)) (rest : list StreamEvent)
    (w : World) (res : Res) :
  pipe (map on_data cs ++ rest) w res = pipe rest w (write_all cs res).
Proof.
  revert res. induction cs as [|c cs IH]; intros res; simpl; auto.
Qed.

(** Once the headers are out, no event changes the status code or
    turns the body into a JSON error. *)
Lemma pipe_keeps_status (events : list StreamEvent) (w : World) (res : Res) :
  headersSent res = true ->
  statusCode (snd (pipe events w res)) = statusCode res
  /\ payload (snd (pipe events w res)) = payload res.
Proof.
  revert res. induction events as [|ev events IH]; intros res H; simpl.
  - auto.
  - destruct ev as [chunk| |e]; simpl.
    + destruct (IH (res_write chunk res) eq_refl) as [-> ->]. auto.
    + auto.
    + unfold on_stream_error. rewrite H. simpl. auto.
Qed.

(** C9, as the code has it: when a read of the download stream fails
    before any chunk was written the response is the JSON error 404;
    when it fails after chunks were written the status code stays 200,
    nothing further is written, and the handler leaves the response
    open: it does not end it.  In no case does the status code change
    once the headers are out. *)
Theorem stream_read_failure (drv : Driver) (env : Env) (songId : string)
    (w : World) (id fid : ObjectId) (s : Song)
    (cs : list (list Byte.byte)) (e : Error) (rest : list StreamEvent) :
  parseObjectId drv songId = Some id ->
  catalog_down env = false ->
  song_with id (songs w) = Some s ->
  fileId s = Some fid ->
  openDownloadStream env w fid = map on_data cs ++ on_error e :: rest ->
  (cs = [] ->
   snd (GET_audio drv env songId w)
   = res_json 404 (ErrorBody "Audio file not found")
       (res_set audio_headers new_res))
  /\ (cs <> [] ->
      statusCode (snd (GET_audio drv env songId w)) = 200
      /\ headersSent (snd (GET_audio drv env songId w)) = true
      /\ written (snd (GET_audio drv env songId w)) = cs
      /\ payload (snd (GET_audio drv env songId w)) = None
      /\ finished (snd (GET_audio drv env songId w)) = false)
  /\ (forall events w0 res0,
        headersSent res0 = true ->
        statusCode (snd (pipe events w0 res0)) = statusCode res0).
Proof.
  intros Hid Hup Hs Hf Hev.
  rewrite (GET_audio_found drv env songId w Hid Hup Hs Hf), Hev, pipe_data.
  simpl. unfold on_stream_error.
  destruct (write_all_fields cs (res_set audio_headers new_res))
    as (H1 & H2 & H3 & H4 & H5 & H6).
  split; [|split].
  - intros ->. reflexivity.
  - intros Hne. rewrite (H5 Hne). simpl. rewrite H1, H2, H3, H4. auto.
  - intros events w0 res0 H. now apply pipe_keeps_status.
Qed.

Lemma stream_read_failure_witness :
  openDownloadStream Sample.env Sample.world_orphan 101%N
  = map on_data [] ++ [on_error FileNotFound]
  /\ snd (GET_audio Sample.driver Sample.env Sample.id_blue_moon
            Sample.world_orphan)
     = res_json 404 (ErrorBody "Audio file not found")
         (res_set audio_headers new_res).
Proof.
  split; [reflexivity|].
  refine (proj1 (stream_read_failure Sample.driver Sample.env
                   Sample.id_blue_moon Sample.world_orphan (id := 1%N)
                   (fid := 101%N) (s := Sample.blue_moon) [] FileNotFound []
                   _ _ _ _ _) _);
    reflexivity.
Defined.

(** C9 as stated fails in its last part: the read of the second chunk
    fails after the first chunk was sent; the status stays 200, but the
    response is not ended by the handler. *)
Lemma failed_stream_stays_open :
  List.length (written (snd (GET_audio Sample.driver Sample.env_read_fails
                               Sample.id_long Sample.world_long))) = 1%nat
  /\ headersSent (snd (GET_audio Sample.driver Sample.env_read_fails
                         Sample.id_long Sample.world_long)) = true
  /\ statusCode (snd (GET_audio Sample.driver Sample.env_read_fails
                        Sample.id_long Sample.world_long)) = 200
  /\ console (fst (GET_audio Sample.driver Sample.env_read_fails
                     Sample.id_long Sample.world_long))
     = [console_error "Streaming error:" MongoNetworkError]
  /\ finished (snd (GET_audio Sample.driver Sample.env_read_fails
                      Sample.id_long Sample.world_long)) = false.
Proof. vm_compute. repeat split. Qed.

(** ** DELETE /api/songs/:songId *)

Lemma song_with_without (id : ObjectId) (rows : list Song) :
  song_with id (without id rows) = None.
Proof.
  unfold song_with, without.
  induction rows as [|r rows IH]; simpl; [reflexivity|].
  destruct (N.eqb (_id r) id) eqn:E; simpl; [exact IH|].
  now rewrite E.
Qed.

(** The best-effort removal of the stored object: it never throws. *)
Lemma storage_delete_fails (env : Env) (fid : ObjectId) (w : World) :
  storage_down env = true \/ has_file fid (uploads w) = false ->
  exists e,
    try_catch (gfs_delete env fid)
      (fun error =>
         say (console_error "Error deleting file from GridFS:" error)) w
    = (logged (console_error "Error deleting file from GridFS:" e) w,
       inr tt).
Proof.
  unfold try_catch, gfs_delete, bind, get.
  destruct (storage_down env); simpl.
  - intros _. now exists MongoNetworkError.
  - intros [H | H]; [discriminate|]. rewrite H. now exists FileNotFound.
Qed.

Lemma storage_delete_works (env : Env) (fid : ObjectId) (w : World) :
  storage_down env = false ->
  has_file fid (uploads w) = true ->
  try_catch (gfs_delete env fid)
    (fun error =>
       say (console_error "Error deleting file from GridFS:" error)) w
  = (mkWorld (songs w)
       (filter (fun f => negb (N.eqb (file_id f) fid)) (uploads w))
       (console w),
     inr tt).
Proof.
  unfold try_catch, gfs_delete, bind, get. intros -> H. simpl.
  now rewrite H.
Qed.

Lemma DELETE_song_found (drv : Driver) (env : Env) (songId : string)
    (w : World) (id : ObjectId) (song : Song) :
  parseObjectId drv songId = Some id ->
  catalog_down env = false ->
  song_with id (songs w) = Some song ->
  DELETE_song drv env songId w
  = match
      match fileId song with
      | Some fid =>
          try_catch (gfs_delete env fid)
            (fun error =>
               say (console_error "Error deleting file from GridFS:" error))
      | None => ret tt
      end w
    with
    | (w1, _) =>
        (mkWorld (without id (songs w1)) (uploads w1)
           (console_log "Song deleted:" (title song) :: console w1),
         json 200 (MessageBody "Song deleted successfully"))
    end.
Proof.
  intros Hid Hup Hs. unfold song_with in Hs.
  unfold DELETE_song, route, delete_handler, Song_findById,
    Song_findByIdAndDelete.
  rewrite Hid, Hup. unfold try_catch at 1 2. unfold bind at 1 2.
  unfold get at 1. unfold ret at 1. simpl. rewrite Hs.
  unfold bind at 1.
  destruct (fileId song) as [fid|].
  - destruct (storage_down env) eqn:Hd.
    + destruct (storage_delete_fails env fid w (or_introl Hd)) as [e ->].
      reflexivity.
    + destruct (has_file fid (uploads w)) eqn:Hh.
      * rewrite (storage_delete_works env fid w Hd Hh). reflexivity.
      * destruct (storage_delete_fails env fid w (or_intror Hh)) as [e ->].
        reflexivity.
  - reflexivity.
Qed.

(** C6: for an existing Song, with the catalogue reachable, the delete
    operation removes the row and answers 200 also when the delete of
    the stored object fails; that failure is written to the console and
    the bucket is left as it was. *)
Theorem delete_survives_storage_failure (drv : Driver) (env : Env)
    (songId : string) (w w' : World) (r : Reply) (id : ObjectId)
    (song : Song) :
  parseObjectId drv songId = Some id ->
  catalog_down env = false ->
  song_with id (songs w) = Some song ->
  DELETE_song drv env songId w = (w', r) ->
  r = json 200 (MessageBody "Song deleted successfully")
  /\ songs w' = without id (songs w)
  /\ song_with id (songs w') = None
  /\ (forall fid,
        fileId song = Some fid ->
        storage_down env = true \/ has_file fid (uploads w) = false ->
        uploads w' = uploads w
        /\ exists e,
             In (console_error "Error deleting file from GridFS:" e)
                (console w')).
Proof.
  intros Hid Hup Hs Hrun.
  rewrite (DELETE_song_found drv env songId w Hid Hup Hs) in Hrun.
  assert (Hrows : r = json 200 (MessageBody "Song deleted successfully")
                  /\ songs w' = without id (songs w)).
  { destruct (fileId song) as [fid|].
    - destruct (storage_down env) eqn:Hd.
      + destruct (storage_delete_fails env fid w (or_introl Hd)) as [e E].
        rewrite E in Hrun. injection Hrun as <- <-. auto.
      + destruct (has_file fid (uploads w)) eqn:Hh.
        * rewrite (storage_delete_works env fid w Hd Hh) in Hrun.
          injection Hrun as <- <-. auto.
        * destruct (storage_delete_fails env fid w (or_intror Hh)) as [e E].
          rewrite E in Hrun. injection Hrun as <- <-. auto.
    - injection Hrun as <- <-. auto. }
  destruct Hrows as [Hr Hrows]. split; [exact Hr|]. split; [exact Hrows|].
  split; [rewrite Hrows; apply song_with_without|].
  intros fid Hf Hfail. rewrite Hf in Hrun.
  destruct (storage_delete_fails env fid w Hfail) as [e E].
  rewrite E in Hrun. injection Hrun as <- <-. simpl.
  split; [reflexivity|]. exists e. right. now left.
Qed.

Lemma delete_survives_witness :
  has_file 101%N (uploads Sample.world_orphan) = false
  /\ snd (DELETE_song Sample.driver Sample.env Sample.id_blue_moon
            Sample.world_orphan)
     = json 200 (MessageBody "Song deleted successfully")
  /\ songs (fst (DELETE_song Sample.driver Sample.env Sample.id_blue_moon
                   Sample.world_orphan))
     = [Sample.sun]
  /\ In (console_error "Error deleting file from GridFS:" FileNotFound)
        (console (fst (DELETE_song Sample.driver Sample.env
                         Sample.id_blue_moon Sample.world_orphan))).
Proof.
  split; [reflexivity|].
  destruct (delete_survives_storage_failure Sample.driver Sample.env
              Sample.id_blue_moon Sample.world_orphan
              (w' := fst (DELETE_song Sample.driver Sample.env
                            Sample.id_blue_moon Sample.world_orphan))
              (r := snd (DELETE_song Sample.driver Sample.env
                           Sample.id_blue_moon Sample.world_orphan))
              (id := 1%N) (song := Sample.blue_moon))
    as (Hr & Hrows & _ & _); try reflexivity.
  split; [exact Hr|]. split; [exact Hrows|].
  right. left. reflexivity.
Defined.

Lemma DELETE_song_invalid (drv : Driver) (env : Env) (songId : string)
    (w : World) :
  parseObjectId drv songId = None ->
  DELETE_song drv env songId w = (w, json 400 (ErrorBody "Invalid song ID")).
Proof.
  intros Hid. unfold DELETE_song, route, delete_handler, try_catch.
  now rewrite Hid.
Qed.

Lemma DELETE_song_unreachable (drv : Driver) (env : Env) (songId : string)
    (w : World) (id : ObjectId) :
  parseObjectId drv songId = Some id ->
  catalog_down env = true ->
  DELETE_song drv env songId w
  = (logged (console_error "Error deleting song:" MongoNetworkError) w,
     json 500 (ErrorBody "Server error")).
Proof.
  intros Hid Hd.
  unfold DELETE_song, route, delete_handler, Song_findById, try_catch, bind.
  now rewrite Hid, Hd.
Qed.

Lemma DELETE_song_missing (drv : Driver) (env : Env) (songId : string)
    (w : World) (id : ObjectId) :
  parseObjectId drv songId = Some id ->
  catalog_down env = false ->
  song_with id (songs w) = None ->
  DELETE_song drv env songId w = (w, json 404 (ErrorBody "Song not found")).
Proof.
  intros Hid Hup Hs. unfold song_with in Hs.
  unfold DELETE_song, route, delete_handler, Song_findById, try_catch, bind,
    get, ret.
  rewrite Hid, Hup. simpl. now rewrite Hs.
Qed.

(** ** Rows are added by uploads only *)

Lemma DELETE_song_rows (drv : Driver) (env : Env) (songId : string)
    (w : World) (s : Song) :
  In s (songs (fst (DELETE_song drv env songId w))) -> In s (songs w).
Proof.
  destruct (parseObjectId drv songId) as [id|] eqn:Hid.
  - destruct (catalog_down env) eqn:Hd.
    + now rewrite (DELETE_song_unreachable drv env songId w Hid Hd).
    + destruct (song_with id (songs w)) as [song|] eqn:Hs.
      * rewrite (DELETE_song_found drv env songId w Hid Hd Hs).
        assert (K : forall rows, In s (without id rows) -> In s rows).
        { intros rows. unfold without. rewrite filter_In. tauto. }
        destruct (fileId song) as [fid|]; [|apply K].
        destruct (storage_down env) eqn:Hsd.
        -- destruct (storage_delete_fails env fid w (or_introl Hsd))
             as [e ->]. apply K.
        -- destruct (has_file fid (uploads w)) eqn:Hh.
           ++ rewrite (storage_delete_works env fid w Hsd Hh). apply K.
           ++ destruct (storage_delete_fails env fid w (or_intror Hh))
                as [e ->]. apply K.
      * now rewrite (DELETE_song_missing drv env songId w Hid Hd Hs).
  - now rewrite (DELETE_song_invalid drv env songId w Hid).
Qed.

Lemma pipe_rows (events : list StreamEvent) (w : World) (res : Res) :
  songs (fst (pipe events w res)) = songs w.
Proof.
  revert res. induction events as [|ev events IH]; intros res; simpl; auto.
  destruct ev as [chunk| |e]; simpl; auto.
  unfold on_stream_error. now destruct (negb (headersSent res)).
Qed.

Lemma GET_audio_rows (drv : Driver) (env : Env) (songId : string)
    (w : World) :
  songs (fst (GET_audio drv env songId w)) = songs w.
Proof.
  unfold GET_audio, Song_findById, bind, get, ret.
  destruct (parseObjectId drv songId) as [id|]; [|reflexivity].
  destruct (catalog_down env); [reflexivity|].
  destruct (find _ (songs w)) as [[i t a c al d [fid|] ca]|]; simpl; auto.
  apply pipe_rows.
Qed.

Lemma GET_songs_world (env : Env) (search : option string) (w : World)
    (out : World * Reply) :
  GET_songs env search w out -> songs (fst out) = songs w.
Proof. intros H. now inversion H. Qed.

(** Every listing request is answered, whatever the search string. *)
Lemma GET_songs_total (env : Env) (search : option string) (w : World) :
  exists out, GET_songs env search w out.
Proof.
  destruct (search_filter search) as [keep| |] eqn:E.
  - destruct (catalog_down env) eqn:Hd.
    + eexists. eapply songs_unreachable; eassumption.
    + exists (w, json 200 (SongsBody (Song_find_sort (songs w) keep))).
      apply songs_found with keep; auto. apply find_sorted_answer.
  - eexists. now apply songs_bad_pattern.
  - eexists. eapply songs_other_error; [exact E | left; reflexivity].
Qed.

(** ** Durations *)

Lemma truthy_fields (req : UploadRequest) :
  Text.truthy (body_duration req) = false -> fields_given req = false.
Proof. unfold fields_given. intros ->. apply andb_false_r. Qed.

Lemma new_song_nan (env : Env) (req : UploadRequest) (fid : ObjectId) :
  duration_read req = None -> new_song env req fid = None.
Proof.
  intros H. destruct (new_song env req fid) as [s|] eqn:E; [|reflexivity].
  apply new_song_fields in E. destruct E as [E _]. congruence.
Qed.

Lemma not_taken_no_clash (s : Song) (rows : list Song) :
  code_taken (songcode s) rows = false ->
  id_taken (_id s) rows = false ->
  clashes s rows = false.
Proof.
  unfold code_taken, id_taken, clashes.
  induction rows as [|r rows IH]; simpl; [reflexivity|].
  intros Hc Hi. apply orb_false_iff in Hc. apply orb_false_iff in Hi.
  destruct Hc as [Hc1 Hc2]. destruct Hi as [Hi1 Hi2].
  now rewrite Hc1, Hi1, IH.
Qed.

(** C7, as the code has it: an upload whose duration field is absent
    or empty adds no row (400 once the file was accepted), and so does
    one whose duration has no leading integer (500 once the other fields
    are there); every row that an upload adds carries the number that
    [parseInt] gives for the duration field, its leading integer rounded
    to the nearest double, and any such number is accepted: zero,
    negative ones and the infinities included.  Deleting, listing and
    streaming add no row, and every listing request is answered. *)
Theorem stored_duration_is_parsed (env : Env) (req : UploadRequest)
    (w w' : World) (r : Reply) :
  POST_upload env req w = (w', r) ->
  (Text.truthy (body_duration req) = false ->
   songs w' = songs w /\ status r <> 200
   /\ (file_accepted env req = true ->
       r = json 400
             (ErrorBody "Missing required fields: title, artist, duration")))
  /\ (duration_read req = None ->
      songs w' = songs w /\ status r <> 200
      /\ (file_accepted env req = true -> fields_given req = true ->
          r = json 500 (ErrorWith "Error uploading song: " ValidationError)))
  /\ (songs w' = songs w
      \/ exists s n,
           duration_read req = Some n /\ duration s = n
           /\ songs w' = songs w ++ [s])
  /\ (forall n,
        file_accepted env req = true -> fields_given req = true ->
        duration_read req = Some n ->
        nonempty (shortid env 0) = true -> catalog_down env = false ->
        code_taken (shortid env 0) (songs w) = false ->
        id_taken (fresh_song env) (songs w) = false ->
        status r = 200
        /\ exists s, duration s = n /\ songs w' = songs w ++ [s])
  /\ (forall drv songId w0 s,
        In s (songs (fst (DELETE_song drv env songId w0))) ->
        In s (songs w0))
  /\ (forall drv songId w0,
        songs (fst (GET_audio drv env songId w0)) = songs w0)
  /\ (forall search w0,
        (exists out, GET_songs env search w0 out)
        /\ forall out,
             GET_songs env search w0 out -> songs (fst out) = songs w0).
Proof.
  intros Hrun.
  pose proof (upload_by_cases env req w) as C. rewrite Hrun in C.
  split; [|split; [|split; [|split; [|split; [|split]]]]].
  - intros Ht. apply truthy_fields in Ht.
    inversion C; subst; simpl; try congruence;
      (split; [reflexivity|]); (split; [discriminate|]);
      intros; try reflexivity; try congruence.
    unfold file_accepted in *.
    match goal with H : audioFile req = None |- _ => rewrite H in * end.
    discriminate.
  - intros Hn. pose proof (new_song_nan env req (fresh_file env) Hn) as Hnone.
    inversion C; subst; simpl; try congruence;
      (split; [reflexivity|]); (split; [discriminate|]);
      intros; try reflexivity; try congruence.
    unfold file_accepted in *.
    match goal with H : audioFile req = None |- _ => rewrite H in * end.
    discriminate.
  - inversion C; subst; simpl; auto.
    right. exists s, (duration s).
    match goal with
    | H : new_song _ _ _ = Some _ |- _ =>
        destruct (new_song_fields _ _ _ H) as [Hd _]
    end.
    auto.
  - intros n Hacc Hf Hd Hcode Hup Hfree Hid.
    destruct (new_song_valid env req (fresh_file env) Hf Hd Hcode) as [s Hs].
    destruct (new_song_fields _ _ _ Hs) as (Hds & Hc & Hi & _).
    assert (Hno : clashes s (songs w) = false).
    { apply not_taken_no_clash; [now rewrite Hc | now rewrite Hi]. }
    inversion C; subst; simpl; try congruence.
    + unfold file_accepted in Hacc.
      match goal with H : audioFile req = None |- _ => rewrite H in Hacc end.
      discriminate.
    + split; [reflexivity|].
      match goal with
      | H : new_song _ _ _ = Some ?s0 |- _ =>
          exists s0; destruct (new_song_fields _ _ _ H) as [Hd0 _]
      end.
      split; [congruence | reflexivity].
  - intros drv songId w0 s. apply DELETE_song_rows.
  - intros drv songId w0. apply GET_audio_rows.
  - intros search w0. split; [apply GET_songs_total|].
    intros out. apply GET_songs_world.
Qed.

Lemma stored_duration_witness :
  duration_read (Sample.request (Some "abc")) = None
  /\ POST_upload Sample.env (Sample.request (Some "abc")) Sample.world
     = (logged (console_error "Upload error:" ValidationError)
          (with_object Sample.env (Sample.request (Some "abc")) Sample.world),
        json 500 (ErrorWith "Error uploading song: " ValidationError))
  /\ songs (with_object Sample.env (Sample.request (Some "abc")) Sample.world)
     = songs Sample.world.
Proof.
  split; [reflexivity|]. split; [reflexivity|].
  apply (proj1 (proj2 (stored_duration_is_parsed Sample.env
                         (Sample.request (Some "abc")) Sample.world
                         eq_refl)) eq_refl).
Defined.

(** C7 as stated fails: durations of zero and below are accepted and
    stored. *)
Lemma zero_duration_is_stored :
  status (snd (POST_upload Sample.env (Sample.request (Some "0"))
                 Sample.world)) = 200
  /\ map duration
       (songs (fst (POST_upload Sample.env (Sample.request (Some "0"))
                      Sample.world)))
     = [Finite 200; Finite 180; Finite 0]
  /\ map duration
       (songs (fst (POST_upload Sample.env (Sample.request (Some "-5"))
                      Sample.world)))
     = [Finite 200; Finite 180; Finite (-5)].
Proof. repeat split. Qed.

(** The stored duration is a double: an integer that no double holds is
    stored as the nearest one, and a run of 400 digits as [Infinity]. *)
Example rounded_duration_is_stored :
  map duration
    (songs (fst (POST_upload Sample.env
                   (Sample.request (Some "9007199254740993"))
                   Sample.world)))
  = [Finite 200; Finite 180; Finite 9007199254740992].
Proof. reflexivity. Qed.

Example infinite_duration_is_stored :
  status (snd (POST_upload Sample.env
                 (Sample.request (Some (Sample.nines 400))) Sample.world))
  = 200
  /\ map duration
       (songs (fst (POST_upload Sample.env
                      (Sample.request (Some (Sample.nines 400)))
                      Sample.world)))
     = [Finite 200; Finite 180; Infinite false].
Proof. split; vm_compute; reflexivity. Qed.

(** ** Chunks *)

Lemma chunkSizeBytes_pos : (0 < chunkSizeBytes)%nat.
Proof. unfold chunkSizeBytes. lia. Qed.

(** The fuel given to [chunks] is enough: the chunks of a file put
    together are the file. *)
Lemma chunks_concat (l : list Byte.byte) :
  List.concat (chunks (List.length l) l) = l.
Proof.
  pose proof chunkSizeBytes_pos as Hpos.
  assert (H : forall fuel l,
             (List.length l <= fuel)%nat -> List.concat (chunks fuel l) = l).
  { induction fuel as [|fuel IH]; intros [|b m] Hlen; try reflexivity.
    - simpl in Hlen. lia.
    - change (chunks (S fuel) (b :: m))
        with (firstn chunkSizeBytes (b :: m)
              :: chunks fuel (skipn chunkSizeBytes (b :: m))).
      cbn [List.concat]. rewrite IH; [apply firstn_skipn|].
      rewrite length_skipn. cbn [List.length] in *. lia. }
  now apply H.
Qed.

(** ** Worked examples *)

Example parseInt_42 : ParseInt.parseInt "42" = Some (Finite 42).
Proof. reflexivity. Qed.
Example parseInt_neg : ParseInt.parseInt "  -7 seconds" = Some (Finite (-7)).
Proof. reflexivity. Qed.
Example parseInt_hex : ParseInt.parseInt "0x1f" = Some (Finite 31).
Proof. reflexivity. Qed.
Example parseInt_nan : ParseInt.parseInt "abc" = None.
Proof. reflexivity. Qed.
Example parseInt_frac : ParseInt.parseInt "3.9" = Some (Finite 3).
Proof. reflexivity. Qed.

Example parseInt_blank : ParseInt.parseInt "   " = None.
Proof. reflexivity. Qed.

Example compile_dot :
  RegExp.compile "a.c"
  = RegExp.Compiled
      [[lit "a"; RegExp.Rep RegExp.ADot RegExp.One; lit "c"]].
Proof. reflexivity. Qed.

Example compile_nothing_to_repeat :
  RegExp.compile "a**" = RegExp.SyntaxError.
Proof. reflexivity. Qed.

Example compile_lazy :
  RegExp.compile "a*?" = RegExp.Compiled [[RegExp.Rep (RegExp.AChr "a") RegExp.Star]].
Proof. reflexivity. Qed.

Example compile_group : RegExp.compile "(a)" = RegExp.Unsupported.
Proof. reflexivity. Qed.

Example test_alternation :
  RegExp.test [[lit "x"]; [lit "o"; lit "o"]] "Blue Moon" = true.
Proof. reflexivity. Qed.

(** A well-formed upload is answered 200 and adds its row. *)
Example upload_ok :
  snd (POST_upload Sample.env (Sample.request (Some "180")) Sample.world)
  = json 200
      (UploadedBody "Song uploaded successfully!"
         (mkSong 3%N "Stars" "Nova" "c3" "Unknown Album" 180 (Some 103%N)
                 5001)
         103%N).
Proof. reflexivity. Qed.

Example upload_filename :
  storage_filename Sample.env Sample.mp3 = "5000-a.mp3".
Proof. reflexivity. Qed.

(** A stored file is streamed whole and the response is ended. *)
Example stream_ok :
  snd (GET_audio Sample.driver Sample.env Sample.id_blue_moon Sample.world)
  = mkRes 200 audio_headers true [[Byte.x49; Byte.x44; Byte.x33]] None true.
Proof. reflexivity. Qed.

(** Songs A, B and C uploaded one after the other are listed C, B, A. *)
Example three_uploads_listed (w' : World) (rows : list Song) :
  GET_songs Sample.env None Sample.after_three_uploads
    (w', json 200 (SongsBody rows)) ->
  map title rows = ["C"; "B"; "A"].
Proof.
  intros H. apply GET_songs_rows in H. destruct H as [keep [[P S] Hk]].
  specialize (Hk _ eq_refl). subst keep. rewrite filter_all in P.
  rewrite (newest_first_unique
             (l1 := rev (songs Sample.after_three_uploads)) (l2 := rows)).
  - reflexivity.
  - apply oldest_first_rev. repeat constructor; simpl; lia.
  - exact S.
  - rewrite P. apply Permutation_rev.
Qed.

(** * Further properties of the handlers *)

(** ** Successful uploads *)

Lemma number_eqb_eq (a b : number) : number_eqb a b = true -> a = b.
Proof.
  destruct a as [x|m], b as [y|n]; simpl; try discriminate.
  - intros H. apply Z.eqb_eq in H. now subst.
  - intros H. apply Bool.eqb_prop in H. now subst.
Qed.

Lemma upload_goes_through_inv (env : Env) (req : UploadRequest) (w : World)
    (n : number) :
  upload_goes_through env req w n = true ->
  file_accepted env req = true /\ fields_given req = true
  /\ duration_read req = Some n /\ nonempty (shortid env 0) = true
  /\ catalog_down env = false
  /\ code_taken (shortid env 0) (songs w) = false
  /\ id_taken (fresh_song env) (songs w) = false
  /\ has_file (fresh_file env) (uploads w) = false.
Proof.
  unfold upload_goes_through. intros H.
  repeat (apply andb_true_iff in H; destruct H as [H ?]).
  repeat match goal with
         | K : negb _ = true |- _ => apply negb_true_iff in K
         end.
  destruct (duration_read req) as [m|]; [|discriminate].
  match goal with
  | K : number_eqb m n = true |- _ => apply number_eqb_eq in K; subst m
  end.
  auto 10.
Qed.

Lemma new_song_uploaded (env : Env) (req : UploadRequest) (n : number) :
  fields_given req = true ->
  duration_read req = Some n ->
  nonempty (shortid env 0) = true ->
  new_song env req (fresh_file env) = Some (uploaded_song env req n).
Proof.
  unfold fields_given, duration_read, new_song, validate, uploaded_song.
  cbn [d_title d_artist d_duration d_album d_fileId].
  destruct (body_title req) as [[|c1 t]|]; try discriminate.
  destruct (body_artist req) as [[|c2 a]|]; try discriminate.
  intros _ -> ->. reflexivity.
Qed.

(** What a successful upload leaves behind. *)
Lemma POST_upload_inserted (env : Env) (req : UploadRequest) (w : World)
    (n : number) :
  upload_goes_through env req w n = true ->
  POST_upload env req w
  = (mkWorld (songs w ++ [uploaded_song env req n])
       (uploads w ++ stored_object env req)
       (console_log "Song uploaded successfully:"
          (title (uploaded_song env req n)) :: console w),
     json 200
       (UploadedBody "Song uploaded successfully!" (uploaded_song env req n)
          (fresh_file env))).
Proof.
  intros H. apply upload_goes_through_inv in H.
  destruct H as (Hacc & Hf & Hd & Hcode & Hup & Hfree & Hid & _).
  pose proof (new_song_uploaded env req Hf Hd Hcode) as Hs.
  assert (Hno : clashes (uploaded_song env req n) (songs w) = false)
    by (apply not_taken_no_clash; assumption).
  rewrite POST_upload_run, (upload_single_accepted env req w Hacc).
  fold (with_object env req w).
  now rewrite (handler_inserts env req _ (with_object env req w)
                 Hf Hs Hup Hno).
Qed.

Lemma find_append {A} (p : A -> bool) (l m : list A) :
  find p (l ++ m) = match find p l with Some x => Some x | None => find p m end.
Proof.
  induction l as [|x l IH]; simpl; [reflexivity|].
  now destruct (p x).
Qed.

Lemma find_none_existsb {A} (p : A -> bool) (l : list A) :
  existsb p l = false -> find p l = None.
Proof.
  induction l as [|x l IH]; simpl; [reflexivity|].
  destruct (p x); [discriminate | exact IH].
Qed.

Lemma filter_none {A} (p : A -> bool) (l : list A) :
  existsb p l = false -> filter (fun x => negb (p x)) l = l.
Proof.
  induction l as [|x l IH]; simpl; [reflexivity|].
  destruct (p x); [discriminate|]. simpl. intros H. now rewrite IH.
Qed.

(** X1.  A well-formed upload is answered 200 and adds exactly one row
    at the end of the catalogue: it carries the given title and artist,
    the album or ["Unknown Album"], the number that [parseInt] gives for
    the duration field, the generated short code and the clock's time,
    and it refers to the one object that was added to the bucket, which
    holds the bytes of the file. *)
Theorem upload_links_song (env : Env) (req : UploadRequest) (w : World)
    (n : number) (f : FilePart) :
  audioFile req = Some f ->
  upload_goes_through env req w n = true ->
  exists s,
    POST_upload env req w
    = (mkWorld (songs w ++ [s])
         (uploads w ++ [mkGridFile (fresh_file env) (storage_filename env f)
                          (content f)])
         (console_log "Song uploaded successfully:" (title s) :: console w),
       json 200 (UploadedBody "Song uploaded successfully!" s (fresh_file env)))
    /\ body_title req = Some (title s)
    /\ body_artist req = Some (artist s)
    /\ album s = album_or_default (body_album req)
    /\ duration s = n
    /\ songcode s = shortid env 0
    /\ createdAt s = now_created env
    /\ fileId s = Some (fresh_file env)
    /\ file_with (fresh_file env)
         (uploads w ++ [mkGridFile (fresh_file env) (storage_filename env f)
                          (content f)])
       = Some (mkGridFile (fresh_file env) (storage_filename env f)
                 (content f)).
Proof.
  intros Hfile H. exists (uploaded_song env req n).
  rewrite (POST_upload_inserted env req w n H).
  apply upload_goes_through_inv in H.
  destruct H as (_ & Hf & _ & _ & _ & _ & _ & Hfresh).
  unfold stored_object. rewrite Hfile.
  split; [reflexivity|]. unfold fields_given in Hf. simpl.
  destruct (body_title req) as [[|c1 t]|]; try discriminate.
  destruct (body_artist req) as [[|c2 a]|]; try discriminate.
  repeat (split; [reflexivity|]).
  unfold file_with, has_file in *.
  rewrite find_append, (find_none_existsb _ _ Hfresh). simpl.
  now rewrite N.eqb_refl.
Qed.

Lemma upload_links_song_witness :
  upload_goes_through Sample.env (Sample.request (Some "180")) Sample.world
    180 = true
  /\ exists s,
       songs (fst (POST_upload Sample.env (Sample.request (Some "180"))
                     Sample.world))
       = songs Sample.world ++ [s]
       /\ duration s = 180 /\ album s = "Unknown Album".
Proof.
  split; [reflexivity|].
  destruct (upload_links_song Sample.env (Sample.request (Some "180"))
              Sample.world 180 (f := Sample.mp3) eq_refl eq_refl)
    as (s & Hrun & _ & _ & Ha & Hd & _).
  exists s. rewrite Hrun. repeat split; assumption.
Defined.

(** ** Streaming a stored file *)

Lemma healthy_inv (env : Env) :
  healthy env = true ->
  catalog_down env = false /\ storage_down env = false
  /\ read_fails_after env = None.
Proof.
  unfold healthy. intros H.
  repeat (apply andb_true_iff in H; destruct H as [H ?]).
  repeat match goal with
         | K : negb _ = true |- _ => apply negb_true_iff in K
         end.
  destruct (read_fails_after env); [discriminate | auto].
Qed.

Lemma GET_audio_healthy (drv : Driver) (env : Env) (songId : string)
    (w : World) (id fid : ObjectId) (s : Song) (f : GridFile) :
  parseObjectId drv songId = Some id ->
  healthy env = true ->
  song_with id (songs w) = Some s ->
  fileId s = Some fid ->
  file_with fid (uploads w) = Some f ->
  GET_audio drv env songId w
  = (w, res_end (write_all (chunks (List.length (data f)) (data f))
                   (res_set audio_headers new_res))).
Proof.
  intros Hid Hh Hs Hf Hfile. apply healthy_inv in Hh.
  destruct Hh as (Hup & Hst & Hrd).
  rewrite (GET_audio_found drv env songId w Hid Hup Hs Hf).
  unfold openDownloadStream. unfold file_with in Hfile.
  rewrite Hst, Hfile, Hrd, pipe_data. reflexivity.
Qed.

Lemma write_all_headers (cs : list (list Byte.byte)) (res : Res) :
  headers (write_all cs res) = headers res.
Proof.
  revert res. induction cs as [|c cs IH]; intros res; simpl; [reflexivity|].
  unfold write_all in IH. now rewrite IH.
Qed.

(** X3.  With no fault on the way, streaming a Song whose file is in
    the bucket answers 200 with the three audio headers, sends the bytes
    of the file whole and in order, ends the response, and leaves the
    world as it was. *)
Theorem stream_whole_file (drv : Driver) (env : Env) (songId : string)
    (w : World) (id fid : ObjectId) (s : Song) (f : GridFile) :
  parseObjectId drv songId = Some id ->
  healthy env = true ->
  song_with id (songs w) = Some s ->
  fileId s = Some fid ->
  file_with fid (uploads w) = Some f ->
  fst (GET_audio drv env songId w) = w
  /\ statusCode (snd (GET_audio drv env songId w)) = 200
  /\ headers (snd (GET_audio drv env songId w)) = audio_headers
  /\ List.concat (written (snd (GET_audio drv env songId w))) = data f
  /\ payload (snd (GET_audio drv env songId w)) = None
  /\ finished (snd (GET_audio drv env songId w)) = true.
Proof.
  intros Hid Hh Hs Hf Hfile.
  rewrite (GET_audio_healthy drv env songId w Hid Hh Hs Hf Hfile).
  destruct (write_all_fields (chunks (List.length (data f)) (data f))
              (res_set audio_headers new_res))
    as (H1 & H2 & H3 & H4 & _ & _).
  simpl. rewrite H1, H2, H3, write_all_headers. simpl.
  repeat split; try reflexivity. apply chunks_concat.
Qed.

Lemma stream_whole_file_witness :
  healthy Sample.env = true
  /\ List.concat
       (written (snd (GET_audio Sample.driver Sample.env Sample.id_blue_moon
                        Sample.world)))
     = [Byte.x49; Byte.x44; Byte.x33]
  /\ finished (snd (GET_audio Sample.driver Sample.env Sample.id_blue_moon
                      Sample.world)) = true.
Proof.
  split; [reflexivity|].
  destruct (stream_whole_file Sample.driver Sample.env Sample.id_blue_moon
              Sample.world (id := 1%N) (fid := 101%N) (s := Sample.blue_moon)
              (f := Sample.audio_of 101%N) eq_refl eq_refl eq_refl eq_refl
              eq_refl)
    as (_ & _ & _ & Hbytes & _ & Hend).
  split; [exact Hbytes | exact Hend].
Defined.

Lemma pipe_world (events : list StreamEvent) (w : World) (res : Res) :
  songs (fst (pipe events w res)) = songs w
  /\ uploads (fst (pipe events w res)) = uploads w.
Proof.
  revert res. induction events as [|ev events IH]; intros res; simpl; auto.
  destruct ev as [chunk| |e]; simpl; auto.
  unfold on_stream_error. now destruct (negb (headersSent res)).
Qed.

(** X4.  Whatever the request and whatever fails, the streaming handler
    never changes the catalogue or the bucket; it only writes to the
    console. *)
Theorem stream_is_read_only (drv : Driver) (env : Env) (songId : string)
    (w : World) :
  songs (fst (GET_audio drv env songId w)) = songs w
  /\ uploads (fst (GET_audio drv env songId w)) = uploads w.
Proof.
  unfold GET_audio, Song_findById, bind, get, ret.
  destruct (parseObjectId drv songId) as [id|]; [|auto].
  destruct (catalog_down env); [auto|].
  destruct (find _ (songs w)) as [[i t a c al d [fid|] ca]|]; simpl; auto.
  apply pipe_world.
Qed.

(** X2.  Upload, then stream: after a well-formed upload, a fault-free
    stream request for the new Song sends back exactly the uploaded
    bytes, with status 200, and ends the response. *)
Theorem upload_then_stream (drv : Driver) (env env' : Env)
    (req : UploadRequest) (w : World) (n : number) (f : FilePart)
    (songId : string) :
  audioFile req = Some f ->
  upload_goes_through env req w n = true ->
  parseObjectId drv songId = Some (fresh_song env) ->
  healthy env' = true ->
  statusCode (snd (GET_audio drv env' songId (fst (POST_upload env req w))))
  = 200
  /\ List.concat
       (written (snd (GET_audio drv env' songId
                        (fst (POST_upload env req w)))))
     = content f
  /\ finished (snd (GET_audio drv env' songId (fst (POST_upload env req w))))
     = true.
Proof.
  intros Hfile H Hid Hh.
  rewrite (POST_upload_inserted env req w n H). simpl fst.
  apply upload_goes_through_inv in H.
  destruct H as (_ & _ & _ & _ & _ & _ & Hfree & Hfresh).
  set (w1 := mkWorld _ _ _).
  assert (Hs : song_with (fresh_song env) (songs w1)
               = Some (uploaded_song env req n)).
  { unfold song_with, id_taken in *. simpl.
    rewrite find_append, (find_none_existsb _ _ Hfree). simpl.
    now rewrite N.eqb_refl. }
  assert (Hf : file_with (fresh_file env) (uploads w1)
               = Some (mkGridFile (fresh_file env) (storage_filename env f)
                         (content f))).
  { unfold file_with, has_file, stored_object in *. simpl. rewrite Hfile.
    rewrite find_append, (find_none_existsb _ _ Hfresh). simpl.
    now rewrite N.eqb_refl. }
  rewrite (GET_audio_healthy drv env' songId w1 Hid Hh Hs eq_refl Hf).
  destruct (write_all_fields
              (chunks (List.length (content f)) (content f))
              (res_set audio_headers new_res))
    as (H1 & H2 & _).
  simpl. rewrite H1, H2. simpl.
  repeat split; try reflexivity. apply chunks_concat.
Qed.

Lemma upload_then_stream_witness :
  List.concat
    (written (snd (GET_audio Sample.driver Sample.env
                     "000000000000000000000003"
                     (fst (POST_upload Sample.env
                             (Sample.request (Some "180")) Sample.world)))))
  = content Sample.mp3.
Proof.
  exact (proj1 (proj2 (upload_then_stream Sample.driver Sample.env Sample.env
                         (Sample.request (Some "180")) Sample.world 180
                         (f := Sample.mp3) "000000000000000000000003"
                         eq_refl eq_refl eq_refl eq_refl))).
Defined.

(** ** Deleting *)

(** A delete with nothing in its way. *)
Lemma DELETE_song_clean (drv : Driver) (env : Env) (songId : string)
    (w : World) (id fid : ObjectId) (song : Song) :
  parseObjectId drv songId = Some id ->
  catalog_down env = false ->
  storage_down env = false ->
  song_with id (songs w) = Some song ->
  fileId song = Some fid ->
  has_file fid (uploads w) = true ->
  DELETE_song drv env songId w
  = (mkWorld (without id (songs w)) (without_file fid (uploads w))
       (console_log "Song deleted:" (title song) :: console w),
     json 200 (MessageBody "Song deleted successfully")).
Proof.
  intros Hid Hup Hst Hs Hf Hh.
  rewrite (DELETE_song_found drv env songId w Hid Hup Hs), Hf.
  now rewrite (storage_delete_works env fid w Hst Hh).
Qed.

(** The rows after any delete request. *)
Lemma DELETE_song_shape (drv : Driver) (env : Env) (songId : string)
    (w : World) :
  songs (fst (DELETE_song drv env songId w)) = songs w
  \/ exists id song,
       parseObjectId drv songId = Some id
       /\ catalog_down env = false
       /\ song_with id (songs w) = Some song
       /\ snd (DELETE_song drv env songId w)
          = json 200 (MessageBody "Song deleted successfully")
       /\ songs (fst (DELETE_song drv env songId w)) = without id (songs w).
Proof.
  destruct (parseObjectId drv songId) as [id|] eqn:Hid.
  - destruct (catalog_down env) eqn:Hd.
    + left. now rewrite (DELETE_song_unreachable drv env songId w Hid Hd).
    + destruct (song_with id (songs w)) as [song|] eqn:Hs.
      * right. exists id, song.
        rewrite (DELETE_song_found drv env songId w Hid Hd Hs).
        destruct (fileId song) as [fid|]; [|auto].
        destruct (storage_down env) eqn:Hsd.
        -- destruct (storage_delete_fails env fid w (or_introl Hsd))
             as [e ->]. auto.
        -- destruct (has_file fid (uploads w)) eqn:Hh.
           ++ rewrite (storage_delete_works env fid w Hsd Hh). auto.
           ++ destruct (storage_delete_fails env fid w (or_intror Hh))
                as [e ->]. auto.
      * left. now rewrite (DELETE_song_missing drv env songId w Hid Hd Hs).
  - left. now rewrite (DELETE_song_invalid drv env songId w Hid).
Qed.

(** X6.  The refusals of the delete handler: an id that is not an
    object id is answered 400, an id that no Song has 404, and an
    unreachable catalogue 500; in all three cases the catalogue and the
    bucket stay as they were. *)
Theorem delete_refusals (drv : Driver) (env : Env) (songId : string)
    (w : World) :
  (parseObjectId drv songId = None ->
   DELETE_song drv env songId w = (w, json 400 (ErrorBody "Invalid song ID")))
  /\ (forall id,
        parseObjectId drv songId = Some id ->
        catalog_down env = false ->
        song_with id (songs w) = None ->
        DELETE_song drv env songId w
        = (w, json 404 (ErrorBody "Song not found")))
  /\ (forall id,
        parseObjectId drv songId = Some id ->
        catalog_down env = true ->
        snd (DELETE_song drv env songId w)
        = json 500 (ErrorBody "Server error")
        /\ songs (fst (DELETE_song drv env songId w)) = songs w
        /\ uploads (fst (DELETE_song drv env songId w)) = uploads w).
Proof.
  split; [|split].
  - apply DELETE_song_invalid.
  - intros id. apply DELETE_song_missing.
  - intros id Hid Hd.
    now rewrite (DELETE_song_unreachable drv env songId w Hid Hd).
Qed.

Lemma delete_refusals_witness :
  DELETE_song Sample.driver Sample.env "xyz" Sample.world
  = (Sample.world, json 400 (ErrorBody "Invalid song ID"))
  /\ DELETE_song Sample.driver Sample.env Sample.id_unknown Sample.world
     = (Sample.world, json 404 (ErrorBody "Song not found")).
Proof.
  split.
  - apply (proj1 (delete_refusals Sample.driver Sample.env "xyz"
                    Sample.world)).
    reflexivity.
  - apply (proj1 (proj2 (delete_refusals Sample.driver Sample.env
                           Sample.id_unknown Sample.world)) 255%N);
      reflexivity.
Defined.

Lemma DELETE_song_found_rows (drv : Driver) (env : Env) (songId : string)
    (w : World) (id : ObjectId) (song : Song) :
  parseObjectId drv songId = Some id ->
  catalog_down env = false ->
  song_with id (songs w) = Some song ->
  songs (fst (DELETE_song drv env songId w)) = without id (songs w).
Proof.
  intros Hid Hup Hs.
  rewrite (DELETE_song_found drv env songId w Hid Hup Hs).
  destruct (fileId song) as [fid|]; [|reflexivity].
  destruct (storage_down env) eqn:Hsd.
  - destruct (storage_delete_fails env fid w (or_introl Hsd)) as [e ->].
    reflexivity.
  - destruct (has_file fid (uploads w)) eqn:Hh.
    + now rewrite (storage_delete_works env fid w Hsd Hh).
    + destruct (storage_delete_fails env fid w (or_intror Hh)) as [e ->].
      reflexivity.
Qed.

(** X7.  Deleting twice: once a Song was deleted, a second delete
    request for the same id is answered 404 and changes nothing. *)
Theorem delete_twice_is_404 (drv : Driver) (env env' : Env)
    (songId : string) (w : World) (id : ObjectId) (song : Song) :
  parseObjectId drv songId = Some id ->
  catalog_down env = false ->
  catalog_down env' = false ->
  song_with id (songs w) = Some song ->
  DELETE_song drv env' songId (fst (DELETE_song drv env songId w))
  = (fst (DELETE_song drv env songId w),
     json 404 (ErrorBody "Song not found")).
Proof.
  intros Hid Hup Hup' Hs.
  apply DELETE_song_missing with id; [exact Hid | exact Hup' |].
  rewrite (DELETE_song_found_rows drv env songId w Hid Hup Hs).
  apply song_with_without.
Qed.

Lemma delete_twice_witness :
  snd (DELETE_song Sample.driver Sample.env Sample.id_blue_moon
         (fst (DELETE_song Sample.driver Sample.env Sample.id_blue_moon
                 Sample.world)))
  = json 404 (ErrorBody "Song not found").
Proof.
  now rewrite (delete_twice_is_404 Sample.driver Sample.env Sample.env
                 Sample.id_blue_moon Sample.world (id := 1%N)
                 (song := Sample.blue_moon) eq_refl eq_refl eq_refl eq_refl).
Defined.

(** X8.  When the stored object of the Song is in the bucket and the
    bucket can be reached, the delete removes that object too: no file
    with its id is left, and every other file stays. *)
Theorem delete_removes_object (drv : Driver) (env : Env) (songId : string)
    (w : World) (id fid : ObjectId) (song : Song) :
  parseObjectId drv songId = Some id ->
  catalog_down env = false ->
  storage_down env = false ->
  song_with id (songs w) = Some song ->
  fileId song = Some fid ->
  has_file fid (uploads w) = true ->
  has_file fid (uploads (fst (DELETE_song drv env songId w))) = false
  /\ (forall g, In g (uploads (fst (DELETE_song drv env songId w))) <->
                In g (uploads w) /\ file_id g <> fid)
  /\ console (fst (DELETE_song drv env songId w))
     = console_log "Song deleted:" (title song) :: console w.
Proof.
  intros Hid Hup Hst Hs Hf Hh.
  rewrite (DELETE_song_clean drv env songId w Hid Hup Hst Hs Hf Hh). simpl.
  assert (K : forall g, In g (without_file fid (uploads w)) <->
                        In g (uploads w) /\ file_id g <> fid).
  { intros g. unfold without_file. rewrite filter_In, negb_true_iff.
    now rewrite N.eqb_neq. }
  split; [|split; [exact K | reflexivity]].
  unfold has_file. destruct (existsb _ _) eqn:E; [|reflexivity].
  apply existsb_exists in E. destruct E as [g [Hin Hg]].
  apply K in Hin. apply N.eqb_eq in Hg. tauto.
Qed.

Lemma delete_removes_object_witness :
  has_file 101%N (uploads Sample.world) = true
  /\ has_file 101%N
       (uploads (fst (DELETE_song Sample.driver Sample.env
                        Sample.id_blue_moon Sample.world))) = false.
Proof.
  split; [reflexivity|].
  exact (proj1 (delete_removes_object Sample.driver Sample.env
                  Sample.id_blue_moon Sample.world (id := 1%N) (fid := 101%N)
                  (song := Sample.blue_moon) eq_refl eq_refl eq_refl eq_refl
                  eq_refl eq_refl)).
Defined.

(** X5.  Upload, then delete: deleting the Song that a well-formed
    upload just added is answered 200 and brings the catalogue and the
    bucket back to what they were before the upload. *)
Theorem upload_then_delete (drv : Driver) (env env' : Env)
    (req : UploadRequest) (w : World) (n : number) (songId : string) :
  upload_goes_through env req w n = true ->
  parseObjectId drv songId = Some (fresh_song env) ->
  catalog_down env' = false ->
  storage_down env' = false ->
  snd (DELETE_song drv env' songId (fst (POST_upload env req w)))
  = json 200 (MessageBody "Song deleted successfully")
  /\ songs (fst (DELETE_song drv env' songId (fst (POST_upload env req w))))
     = songs w
  /\ uploads (fst (DELETE_song drv env' songId (fst (POST_upload env req w))))
     = uploads w.
Proof.
  intros H Hid Hup Hst.
  rewrite (POST_upload_inserted env req w n H). simpl fst.
  apply upload_goes_through_inv in H.
  destruct H as (Hacc & _ & _ & _ & _ & _ & Hfree & Hfresh).
  set (w1 := mkWorld _ _ _).
  assert (Hs : song_with (fresh_song env) (songs w1)
               = Some (uploaded_song env req n)).
  { unfold song_with, id_taken in *. simpl.
    rewrite find_append, (find_none_existsb _ _ Hfree). simpl.
    now rewrite N.eqb_refl. }
  assert (Hh : has_file (fresh_file env) (uploads w1) = true)
    by (now apply has_file_stored).
  rewrite (DELETE_song_clean drv env' songId w1 Hid Hup Hst Hs eq_refl Hh).
  simpl. split; [reflexivity|]. split.
  - unfold without, id_taken in *. rewrite filter_app. simpl.
    rewrite N.eqb_refl. simpl.
    now rewrite (filter_none _ _ Hfree), app_nil_r.
  - unfold without_file, has_file, file_accepted, stored_object in *.
    rewrite filter_app. destruct (audioFile req) as [f|]; [|discriminate].
    simpl. rewrite N.eqb_refl. simpl.
    now rewrite (filter_none _ _ Hfresh), app_nil_r.
Qed.

Lemma upload_then_delete_witness :
  songs (fst (DELETE_song Sample.driver Sample.env "000000000000000000000003"
                (fst (POST_upload Sample.env (Sample.request (Some "180"))
                        Sample.world))))
  = songs Sample.world
  /\ uploads (fst (DELETE_song Sample.driver Sample.env
                     "000000000000000000000003"
                     (fst (POST_upload Sample.env
                             (Sample.request (Some "180")) Sample.world))))
     = uploads Sample.world.
Proof.
  exact (proj2 (upload_then_delete Sample.driver Sample.env Sample.env
                  (Sample.request (Some "180")) Sample.world 180
                  "000000000000000000000003" eq_refl eq_refl eq_refl
                  eq_refl)).
Defined.

(** ** What the write operations keep *)

Lemma clashes_not_in (s : Song) (rows : list Song) :
  clashes s rows = false ->
  ~ In (_id s) (map _id rows) /\ ~ In (songcode s) (map songcode rows).
Proof.
  unfold clashes. induction rows as [|r rows IH]; simpl; [tauto|].
  intros H. apply orb_false_iff in H. destruct H as [H1 H2].
  apply orb_false_iff in H1. destruct H1 as [Hi Hc].
  apply N.eqb_neq in Hi. apply String.eqb_neq in Hc.
  destruct (IH H2). tauto.
Qed.

Lemma NoDup_snoc {A} (l : list A) (x : A) :
  NoDup l -> ~ In x l -> NoDup (l ++ [x]).
Proof.
  intros Hl Hx. induction Hl as [|y l Hy Hl IH]; simpl.
  - repeat constructor. tauto.
  - constructor.
    + rewrite in_app_iff. simpl. intros [K | [K | []]]; [tauto|].
      subst. apply Hx. now left.
    + apply IH. intros K. apply Hx. now right.
Qed.

(** Removing rows cannot make two keys meet. *)
Lemma keys_after_filter {K : Type} (key : Song -> K) (keep : Song -> bool)
    (rows : list Song) :
  NoDup (map key rows) -> NoDup (map key (filter keep rows)).
Proof.
  induction rows as [|r rows IH]; simpl; intros H; [constructor|].
  apply NoDup_cons_iff in H. destruct H as [Hr Hrows].
  destruct (keep r); simpl; [|now apply IH].
  constructor; [|now apply IH].
  intros K0. apply Hr. apply in_map_iff in K0. destruct K0 as [y [E Hy]].
  apply filter_In in Hy. apply in_map_iff. exists y. tauto.
Qed.

(** X9.  Uploads and deletes keep the keys unique: when no two rows of
    the catalogue share an [_id] or a short code, the same holds after
    any upload request and after any delete request. *)
Theorem unique_keys_kept (w : World) :
  unique_keys (songs w) ->
  (forall env req, unique_keys (songs (fst (POST_upload env req w))))
  /\ (forall drv env songId,
        unique_keys (songs (fst (DELETE_song drv env songId w)))).
Proof.
  intros [Hi Hc]. split.
  - intros env req.
    pose proof (upload_by_cases env req w) as C.
    inversion C; simpl; try (split; assumption).
    match goal with
    | K : clashes _ _ = false |- _ =>
        apply clashes_not_in in K; destruct K as [Ki Kc]
    end.
    unfold unique_keys. rewrite !map_app. simpl.
    split; now apply NoDup_snoc.
  - intros drv env songId.
    destruct (DELETE_song_shape drv env songId w)
      as [-> | (id & song & _ & _ & _ & _ & ->)]; [now split|].
    split; now apply keys_after_filter.
Qed.

Lemma unique_keys_kept_witness :
  unique_keys
    (songs (fst (POST_upload Sample.env_collision
                   (Sample.request (Some "180")) Sample.world)))
  /\ unique_keys
       (songs (fst (POST_upload Sample.env (Sample.request (Some "180"))
                      Sample.world))).
Proof.
  assert (H : unique_keys (songs Sample.world)).
  { split; simpl; repeat constructor; simpl; intuition discriminate. }
  split; apply (proj1 (unique_keys_kept Sample.world H)).
Defined.

(** X10.  An upload request never removes or changes what is there:
    the old rows and the old files stay in place, in order, and at most
    one row and one file are added behind them. *)
Theorem upload_only_appends (env : Env) (req : UploadRequest) (w : World) :
  exists rows files,
    songs (fst (POST_upload env req w)) = songs w ++ rows
    /\ uploads (fst (POST_upload env req w)) = uploads w ++ files
    /\ (List.length rows <= 1)%nat
    /\ (List.length files <= 1)%nat
    /\ (rows <> [] -> files <> []).
Proof.
  assert (L : (List.length (stored_object env req) <= 1)%nat)
    by (unfold stored_object; destruct (audioFile req); simpl; lia).
  assert (A : file_accepted env req = true -> stored_object env req <> []).
  { unfold file_accepted, stored_object.
    destruct (audioFile req); [discriminate | discriminate]. }
  pose proof (upload_by_cases env req w) as C.
  inversion C; simpl;
    try (exists [], []; rewrite !app_nil_r; simpl;
         repeat split; auto; congruence);
    try (exists [], (stored_object env req); rewrite !app_nil_r; simpl;
         repeat split; auto; congruence).
  exists [s], (stored_object env req). simpl. repeat split; auto.
Qed.

(** X11.  An upload that does not pass the multer stage stores
    nothing: a request without any file part, its text fields within
    the limit, is answered 400, and every other one (a part of the wrong
    content type, over 50MB, a bucket that cannot be reached, a file
    part under another field name or a second file part, a text field
    over 1MB) is answered 500; the catalogue and the bucket stay as they
    were. *)
Theorem refused_upload_stores_nothing (env : Env) (req : UploadRequest)
    (w : World) :
  file_accepted env req = false ->
  songs (fst (POST_upload env req w)) = songs w
  /\ uploads (fst (POST_upload env req w)) = uploads w
  /\ snd (POST_upload env req w)
     = match audioFile req, otherFiles req, fields_fit req with
       | None, [], true => json 400 (ErrorBody "No file uploaded")
       | _, _, _ => json 500 (ErrorBody "Something went wrong!")
       end.
Proof.
  unfold file_accepted. rewrite POST_upload_run.
  unfold upload_single, expect_no_more, fileFilter, throw, ret.
  destruct (audioFile req) as [f|].
  - destruct (Text.startsWith (mimetype f) "audio/"); simpl;
      [|destruct (otherFiles req), (fields_fit req); auto].
    destruct (fileSize <? _) eqn:E;
      [destruct (otherFiles req), (fields_fit req); auto|].
    apply Z.ltb_ge in E. apply Z.leb_le in E. rewrite E. simpl.
    destruct (storage_down env);
      [destruct (otherFiles req), (fields_fit req); auto|].
    destruct (otherFiles req); [|destruct (fields_fit req); auto].
    destruct (fields_fit req); [discriminate | auto].
  - intros _. destruct (otherFiles req); [|destruct (fields_fit req); auto].
    destruct (fields_fit req); [now rewrite handler_no_file | auto].
Qed.

Lemma refused_upload_witness :
  file_accepted Sample.env Sample.request_misnamed = false
  /\ uploads (fst (POST_upload Sample.env Sample.request_misnamed
                     Sample.world))
     = uploads Sample.world
  /\ snd (POST_upload Sample.env Sample.request_misnamed Sample.world)
     = json 500 (ErrorBody "Something went wrong!").
Proof.
  split; [reflexivity|].
  exact (proj2 (refused_upload_stores_nothing Sample.env
                  Sample.request_misnamed Sample.world eq_refl)).
Defined.

(** ** Listing after other operations *)

Lemma ci_prefix_upcase (s1 s2 t : list ascii) :
  Text.upcase s1 = Text.upcase s2 -> ci_prefix s1 t = ci_prefix s2 t.
Proof.
  revert s2 t. induction s1 as [|c s1 IH]; intros [|d s2] t H;
    try discriminate; [reflexivity|].
  simpl in H. injection H as Hc Hs.
  destruct t as [|e t]; simpl; [reflexivity|].
  unfold Text.same_letter. rewrite Hc. now rewrite (IH s2 t Hs).
Qed.

Lemma ci_infix_upcase (s1 s2 t : list ascii) :
  Text.upcase s1 = Text.upcase s2 -> ci_infix s1 t = ci_infix s2 t.
Proof.
  intros H. induction t as [|e t IH]; simpl;
    rewrite (ci_prefix_upcase s1 s2 _ H); [reflexivity|].
  now rewrite IH.
Qed.

(** X12.  The search ignores the case of the search string too: two
    search strings without syntax characters that differ only in the
    case of their letters get the same answers. *)
Theorem search_ignores_case (env : Env) (s1 s2 : string) (w : World)
    (out : World * Reply) :
  nonempty s1 = true -> plain s1 = true ->
  nonempty s2 = true -> plain s2 = true ->
  Text.upcase (Text.chars s1) = Text.upcase (Text.chars s2) ->
  GET_songs env (Some s1) w out <-> GET_songs env (Some s2) w out.
Proof.
  intros Hn1 Hp1 Hn2 Hp2 Hcase.
  destruct (search_filter_plain s1 Hn1 Hp1) as [k1 [Hk1 Hm1]].
  destruct (search_filter_plain s2 Hn2 Hp2) as [k2 [Hk2 Hm2]].
  assert (E : forall r, k1 r = k2 r).
  { intros r. rewrite Hm1, Hm2. unfold mentions, ci_substring.
    now rewrite !(ci_infix_upcase _ _ _ Hcase). }
  split; intros H;
    inversion H as [k rows Hk Hup [P S] | Hk | k Hk Hd | k rows Hk | e Hk];
    subst; try congruence.
  - rewrite Hk1 in Hk. injection Hk as <-.
    eapply songs_found; [exact Hk2 | exact Hup |].
    split; [|exact S]. now rewrite <- (filter_ext _ _ E).
  - eapply songs_unreachable; eauto.
  - rewrite Hk2 in Hk. injection Hk as <-.
    eapply songs_found; [exact Hk1 | exact Hup |].
    split; [|exact S]. now rewrite (filter_ext _ _ E).
  - eapply songs_unreachable; eauto.
Qed.

Lemma search_ignores_case_witness :
  GET_songs Sample.env (Some "moon") Sample.world
    (Sample.world, json 200 (SongsBody [Sample.blue_moon])).
Proof.
  apply (search_ignores_case Sample.env "MOON" "moon" Sample.world
           (Sample.world, json 200 (SongsBody [Sample.blue_moon]))
           eq_refl eq_refl eq_refl eq_refl eq_refl).
  eapply songs_found; [reflexivity | reflexivity |].
  split; [reflexivity | repeat constructor].
Defined.

(** X13.  A fresh upload heads the list: after a well-formed upload
    whose creation time is later than that of every row, each unfiltered
    list answer starts with the new Song, followed by a list answer of
    the old catalogue. *)
Theorem new_upload_listed_first (env env' : Env) (req : UploadRequest)
    (w w' : World) (n : number) (rows : list Song) :
  upload_goes_through env req w n = true ->
  Forall (fun r => createdAt r < now_created env) (songs w) ->
  GET_songs env' None (fst (POST_upload env req w))
    (w', json 200 (SongsBody rows)) ->
  exists rest,
    rows = uploaded_song env req n :: rest
    /\ find_sorted (songs w) (fun _ => true) rest.
Proof.
  intros H Hold Hlist.
  rewrite (POST_upload_inserted env req w n H) in Hlist. simpl fst in Hlist.
  apply GET_songs_rows in Hlist. destruct Hlist as [keep [[P S] Hk]].
  specialize (Hk _ eq_refl). subst keep. simpl in P.
  rewrite filter_all in P.
  set (s := uploaded_song env req n) in *.
  assert (P' : Permutation rows (s :: songs w)).
  { rewrite P. symmetry. apply Permutation_cons_append. }
  destruct rows as [|h rest].
  - apply Permutation_nil in P'. discriminate.
  - unfold newest_first in S. apply StronglySorted_inv in S.
    destruct S as [Srest Fh].
    assert (Eh : h = s).
    { assert (Ih : In h (s :: songs w))
        by (apply Permutation_in with (h :: rest); [exact P' | now left]).
      destruct Ih as [Ih | Ih]; [now symmetry|].
      assert (Is : In s (h :: rest))
        by (apply Permutation_in with (s :: songs w);
            [now symmetry | now left]).
      destruct Is as [Is | Is]; [exact Is|].
      rewrite Forall_forall in Fh, Hold.
      specialize (Fh _ Is). specialize (Hold _ Ih).
      unfold s in Fh. simpl in Fh. lia. }
    subst h. exists rest. split; [reflexivity|]. split; [|exact Srest].
    rewrite filter_all. now apply Permutation_cons_inv with s.
Qed.

Lemma new_upload_listed_first_witness :
  exists rest,
    [uploaded_song Sample.env (Sample.request (Some "180")) 180;
     Sample.sun; Sample.blue_moon]
    = uploaded_song Sample.env (Sample.request (Some "180")) 180 :: rest
    /\ find_sorted (songs Sample.world) (fun _ => true) rest.
Proof.
  apply (new_upload_listed_first Sample.env (env' := Sample.env)
           (Sample.request (Some "180")) Sample.world
           (w' := fst (POST_upload Sample.env (Sample.request (Some "180"))
                         Sample.world)) 180 eq_refl).
  - repeat constructor.
  - eapply songs_found; [reflexivity | reflexivity |]. split.
    + apply Permutation_sym.
      apply (Permutation_rev
               [Sample.blue_moon; Sample.sun;
                uploaded_song Sample.env (Sample.request (Some "180")) 180]).
    + repeat constructor; simpl; lia.
Defined.

(** X14.  A deleted Song is never listed again: after a delete that
    found its Song, no list answer, whatever the search, holds a row
    with that id. *)
Theorem deleted_never_listed (drv : Driver) (env env' : Env)
    (songId : string) (w w' : World) (id : ObjectId) (song : Song)
    (search : option string) (rows : list Song) :
  parseObjectId drv songId = Some id ->
  catalog_down env = false ->
  song_with id (songs w) = Some song ->
  GET_songs env' search (fst (DELETE_song drv env songId w))
    (w', json 200 (SongsBody rows)) ->
  forall r, In r rows -> _id r <> id.
Proof.
  intros Hid Hup Hs Hlist r Hr.
  apply GET_songs_rows in Hlist. destruct Hlist as [keep [[P _] _]].
  rewrite (DELETE_song_found_rows drv env songId w Hid Hup Hs) in P.
  apply (Permutation_in _ P) in Hr.
  apply filter_In in Hr. destruct Hr as [Hr _].
  unfold without in Hr. apply filter_In in Hr. destruct Hr as [_ Hr].
  apply negb_true_iff in Hr. now apply N.eqb_neq.
Qed.

Lemma deleted_never_listed_witness :
  In Sample.sun [Sample.sun] /\ _id Sample.sun <> 1%N.
Proof.
  split; [now left|].
  apply (deleted_never_listed Sample.driver Sample.env (env' := Sample.env)
           Sample.id_blue_moon Sample.world
           (w' := fst (DELETE_song Sample.driver Sample.env
                         Sample.id_blue_moon Sample.world))
           (song := Sample.blue_moon) (search := Some "blue")
           (rows := [Sample.sun]) eq_refl eq_refl eq_refl);
    [|now left].
  eapply songs_found; [reflexivity | reflexivity |].
  split; [reflexivity | repeat constructor].
Defined.

(** * Properties of the browser client *)

(** ** The upload form *)

(** X15.  What the form sends is never refused for a missing file or
    field: a request leaves [handleSubmit] only when a file is chosen and
    title and artist are filled in, it then carries that file and all
    three required fields, and the server answers it neither with "No
    file uploaded" nor with "Missing required fields". *)
Theorem submitted_form_is_complete (st st' : Client.FileUpload)
    (req : UploadRequest) :
  Client.handleSubmit st = (st', Some req) ->
  audioFile req = Client.file st
  /\ Client.file st <> None
  /\ body_title req = Some (Client.title (Client.formData st))
  /\ body_artist req = Some (Client.artist (Client.formData st))
  /\ fields_given req = true
  /\ Client.uploading st' = true
  /\ forall env w,
       snd (POST_upload env req w) <> json 400 (ErrorBody "No file uploaded")
       /\ snd (POST_upload env req w)
          <> json 400
               (ErrorBody "Missing required fields: title, artist, duration").
Proof.
  unfold Client.handleSubmit.
  destruct (Client.file st) as [f|] eqn:Hfile; [|discriminate].
  destruct (Client.title (Client.formData st)) as [|c1 t] eqn:Ht;
    [discriminate|].
  destruct (Client.artist (Client.formData st)) as [|c2 a] eqn:Ha;
    [discriminate|].
  simpl. intros H. injection H as <- <-.
  assert (Hf : fields_given
                 (mkUploadRequest (Some f) (Some (String c1 t))
                    (Some (String c2 a))
                    (Some (Client.album (Client.formData st)))
                    (Some (Client.duration_or_default
                             (Client.duration (Client.formData st)))) [])
               = true).
  { unfold fields_given, Client.duration_or_default. simpl.
    now destruct (Client.duration (Client.formData st)). }
  repeat (split; [first [reflexivity | discriminate | exact Hf]|]).
  intros env w.
  pose proof (upload_by_cases env
                (mkUploadRequest (Some f) (Some (String c1 t))
                   (Some (String c2 a))
                   (Some (Client.album (Client.formData st)))
                   (Some (Client.duration_or_default
                            (Client.duration (Client.formData st)))) []) w)
    as C.
  inversion C; simpl; split; try discriminate; congruence.
Qed.

Lemma submitted_form_witness :
  Client.handleSubmit
    (Client.mkFileUpload (Some Sample.mp3)
       (Client.mkFormData "Stars" "Nova" "" "") false "")
  = (Client.mkFileUpload (Some Sample.mp3)
       (Client.mkFormData "Stars" "Nova" "" "") true "",
     Some (mkUploadRequest (Some Sample.mp3) (Some "Stars") (Some "Nova")
             (Some "") (Some "180") []))
  /\ fields_given
       (mkUploadRequest (Some Sample.mp3) (Some "Stars") (Some "Nova")
          (Some "") (Some "180") []) = true.
Proof.
  split; [reflexivity|].
  exact (proj1 (proj2 (proj2 (proj2 (proj2
           (submitted_form_is_complete
              (Client.mkFileUpload (Some Sample.mp3)
                 (Client.mkFormData "Stars" "Nova" "" "") false "")
              eq_refl)))))).
Defined.

(** X16.  The form's defaults reach the catalogue: when the duration
    input is left empty the request carries ["180"], so a row that the
    upload adds has duration 180; and when the album input is left empty
    the row's album is ["Unknown Album"]. *)
Theorem empty_inputs_take_defaults (st st' : Client.FileUpload)
    (req : UploadRequest) (env : Env) (w : World) (s : Song) :
  Client.handleSubmit st = (st', Some req) ->
  songs (fst (POST_upload env req w)) = songs w ++ [s] ->
  (Client.duration (Client.formData st) = "" -> duration s = 180)
  /\ (Client.album (Client.formData st) = "" -> album s = "Unknown Album").
Proof.
  unfold Client.handleSubmit.
  destruct (Client.file st) as [f|]; [|discriminate].
  destruct (negb _ || negb _)%bool; [discriminate|].
  intros H. injection H as <- <-.
  set (req := mkUploadRequest _ _ _ _ _ _). intros Hrows.
  pose proof (upload_by_cases env req w) as C.
  assert (Hs : new_song env req (fresh_file env) = Some s).
  { inversion C;
      match goal with
      | K : _ = POST_upload env req w |- _ => rewrite <- K in Hrows
      end;
      simpl in Hrows;
      try (exfalso; apply (f_equal (@List.length Song)) in Hrows;
           rewrite length_app in Hrows; simpl in Hrows; lia).
    apply app_inj_tail in Hrows. destruct Hrows as [_ <-]. assumption. }
  split; intros E.
  - destruct (new_song_fields _ _ _ Hs) as [Hd _].
    unfold duration_read, req in Hd. simpl in Hd. rewrite E in Hd.
    simpl in Hd.
    assert (P : ParseInt.parseInt (Client.duration_or_default "")
                = Some (Finite 180))
      by reflexivity.
    rewrite P in Hd. congruence.
  - unfold new_song, validate, req in Hs. simpl in Hs. rewrite E in Hs.
    destruct (ParseInt.parseInt _); [|discriminate].
    destruct (_ && _)%bool; [|discriminate].
    injection Hs as <-. reflexivity.
Qed.

Lemma empty_inputs_witness :
  map duration
    (songs (fst (POST_upload Sample.env
                   (mkUploadRequest (Some Sample.mp3) (Some "Stars")
                      (Some "Nova") (Some "") (Some "180") [])
                   Sample.world)))
  = [Finite 200; Finite 180; Finite 180]
  /\ duration
       (mkSong 3%N "Stars" "Nova" "c3" "Unknown Album" 180 (Some 103%N) 5001)
     = 180.
Proof.
  split; [reflexivity|].
  exact (proj1 (empty_inputs_take_defaults
                  (Client.mkFileUpload (Some Sample.mp3)
                     (Client.mkFormData "Stars" "Nova" "" "") false "")
                  Sample.env Sample.world
                  (mkSong 3%N "Stars" "Nova" "c3" "Unknown Album" 180
                     (Some 103%N) 5001)
                  eq_refl eq_refl) eq_refl).
Defined.

Lemma strip_extension_cut (base ext : list ascii) :
  ext <> [] ->
  forallb Client.extension_char ext = true ->
  Client.strip_extension (base ++ "."%char :: ext) = base.
Proof.
  intros Hne Hext. induction base as [|c base IH]; simpl.
  - rewrite Hext. destruct ext; [congruence | reflexivity].
  - rewrite forallb_app. simpl.
    rewrite andb_false_r, andb_false_r. now rewrite IH.
Qed.

Lemma strip_extension_no_dot (name : list ascii) :
  forallb (fun c => negb (Ascii.eqb c ".")) name = true ->
  Client.strip_extension name = name.
Proof.
  induction name as [|c name IH]; simpl; [reflexivity|].
  intros H. apply andb_true_iff in H. destruct H as [Hc Hn].
  apply negb_true_iff in Hc. rewrite Hc. simpl. now rewrite IH.
Qed.

(** X17.  The title proposed from the file name: while the title input
    is empty, choosing a file whose name ends in a dot and an extension
    (one or more characters, none of them a dot or a slash) fills in the
    name without that extension, earlier dots staying in place; a name
    without any dot is taken whole; a title that was already typed is
    never overwritten. *)
Theorem title_from_file_name (f : FilePart) (st : Client.FileUpload) :
  (forall base ext,
     Client.title (Client.formData st) = "" ->
     Text.chars (originalname f) = base ++ "."%char :: ext ->
     ext <> [] ->
     forallb Client.extension_char ext = true ->
     Client.title (Client.formData (Client.handleFileChange (Some f) st))
     = string_of_list_ascii base)
  /\ (Client.title (Client.formData st) = "" ->
      forallb (fun c => negb (Ascii.eqb c "."))
        (Text.chars (originalname f)) = true ->
      Client.title (Client.formData (Client.handleFileChange (Some f) st))
      = originalname f)
  /\ (nonempty (Client.title (Client.formData st)) = true ->
      forall selected,
        Client.formData (Client.handleFileChange selected st)
        = Client.formData st).
Proof.
  unfold Client.handleFileChange. split; [|split].
  - intros base ext -> Hname Hne Hext. simpl.
    now rewrite Hname, strip_extension_cut.
  - intros -> Hname. simpl.
    rewrite (strip_extension_no_dot _ Hname).
    apply string_of_list_ascii_of_string.
  - intros -> [g|]; reflexivity.
Qed.

Lemma title_from_file_name_witness :
  Client.title
    (Client.formData
       (Client.handleFileChange
          (Some (mkFilePart "my.song.mp3" "audio/mpeg" []))
          (Client.mkFileUpload None (Client.mkFormData "" "" "" "") false "")))
  = "my.song".
Proof.
  exact (proj1 (title_from_file_name
                  (mkFilePart "my.song.mp3" "audio/mpeg" [])
                  (Client.mkFileUpload None (Client.mkFormData "" "" "" "")
                     false ""))
           (Text.chars "my.song") (Text.chars "mp3") eq_refl eq_refl
           ltac:(discriminate) eq_refl).
Defined.

(** ** The duration column *)

Lemma pad_two_digits (r : Z) :
  0 <= r < 60 ->
  Client.padStart 2 "0" (Text.show_int r)
  = String (digit (r / 10)) (String (digit (r mod 10)) "").
Proof.
  intros Hr.
  assert (H : forallb
                (fun k =>
                   String.eqb
                     (Client.padStart 2 "0" (Text.show_int (Z.of_nat k)))
                     (String (digit (Z.of_nat k / 10))
                        (String (digit (Z.of_nat k mod 10)) "")))
                (seq 0 60) = true) by (vm_compute; reflexivity).
  rewrite forallb_forall in H.
  specialize (H (Z.to_nat r)). rewrite Z2Nat.id in H by lia.
  apply String.eqb_eq, H, in_seq. lia.
Qed.

Lemma pad_negative (r : Z) :
  -60 < r < 0 ->
  Client.padStart 2 "0" (Text.show_int r)
  = String "-" (Text.show_int (- r)).
Proof.
  intros Hr.
  assert (H : forallb
                (fun k =>
                   String.eqb
                     (Client.padStart 2 "0" (Text.show_int (- Z.of_nat k)))
                     (String "-" (Text.show_int (Z.of_nat k))))
                (seq 1 59) = true) by (vm_compute; reflexivity).
  rewrite forallb_forall in H.
  specialize (H (Z.to_nat (- r))). rewrite Z2Nat.id in H by lia.
  rewrite Z.opp_involutive in H.
  apply String.eqb_eq, H, in_seq. lia.
Qed.

(** X18.  For a duration of zero or more seconds, up to
    [Number.MAX_SAFE_INTEGER], [formatDuration] shows the whole minutes,
    a colon, and the remaining seconds as exactly two decimal digits (65
    seconds is ["1:05"]). *)
Theorem formatDuration_minutes_seconds (seconds : Z) :
  0 <= seconds <= Client.MAX_SAFE_INTEGER ->
  Client.formatDuration seconds
  = Some (Text.show_int (seconds / 60) ++ ":"
          ++ String (digit (seconds mod 60 / 10))
               (String (digit (seconds mod 60 mod 10)) ""))%string
  /\ 0 <= seconds mod 60 < 60
  /\ seconds / 60 * 60 + seconds mod 60 = seconds.
Proof.
  intros H. unfold Client.formatDuration.
  replace (Z.abs seconds <=? Client.MAX_SAFE_INTEGER) with true
    by (symmetry; apply Z.leb_le; lia).
  rewrite Z.rem_mod_nonneg by lia.
  pose proof (Z.mod_pos_bound seconds 60 ltac:(lia)) as B.
  rewrite (pad_two_digits B).
  pose proof (Z.div_mod seconds 60 ltac:(lia)). repeat split; lia.
Qed.

Lemma formatDuration_witness :
  Client.formatDuration 65 = Some "1:05"
  /\ Client.formatDuration 59 = Some "0:59".
Proof.
  split.
  - now rewrite (proj1 (formatDuration_minutes_seconds (seconds := 65)
                          ltac:(unfold Client.MAX_SAFE_INTEGER; lia))).
  - now rewrite (proj1 (formatDuration_minutes_seconds (seconds := 59)
                          ltac:(unfold Client.MAX_SAFE_INTEGER; lia))).
Defined.

(** X19.  For a negative duration, down to
    [- Number.MAX_SAFE_INTEGER], that is not a whole number of minutes,
    which the catalogue may hold, [formatDuration] shows the floored
    minutes and, after the colon, a minus sign and the seconds: the two
    numbers shown are one minute short of the duration (-5 seconds is
    ["-1:-5"]). *)
Theorem formatDuration_negative (seconds : Z) :
  - Client.MAX_SAFE_INTEGER <= seconds < 0 ->
  Z.rem seconds 60 <> 0 ->
  Client.formatDuration seconds
  = Some (Text.show_int (seconds / 60) ++ ":-"
          ++ Text.show_int (- Z.rem seconds 60))%string
  /\ seconds / 60 * 60 + Z.rem seconds 60 = seconds - 60.
Proof.
  intros [Hlow Hneg] Hrem. unfold Client.formatDuration.
  replace (Z.abs seconds <=? Client.MAX_SAFE_INTEGER) with true
    by (symmetry; apply Z.leb_le; lia).
  pose proof (Z.rem_bound_pos_neg seconds 60 ltac:(lia) ltac:(lia)) as B.
  rewrite pad_negative by (split; [apply B | destruct B; lia]).
  split; [reflexivity|].
  pose proof (Z.quot_rem' seconds 60) as Q.
  pose proof (Z.div_mod seconds 60 ltac:(lia)) as D.
  pose proof (Z.mod_pos_bound seconds 60 ltac:(lia)) as M.
  generalize dependent (Z.rem seconds 60).
  generalize dependent (seconds mod 60).
  generalize dependent (seconds / 60).
  generalize dependent (Z.quot seconds 60). intros. lia.
Qed.

Lemma formatDuration_negative_witness :
  Client.formatDuration (-5) = Some "-1:-5".
Proof.
  now rewrite (proj1 (formatDuration_negative (seconds := -5)
                        ltac:(unfold Client.MAX_SAFE_INTEGER; lia)
                        ltac:(discriminate))).
Defined.

(** ** Deleting from the song list *)

Lemma filter_perm {A} (p : A -> bool) (l m : list A) :
  Permutation l m -> Permutation (filter p l) (filter p m).
Proof.
  induction 1 as [| x l m _ IH | x y l | l m k _ IH1 _ IH2]; simpl.
  - constructor.
  - destruct (p x); [now constructor | exact IH].
  - destruct (p x), (p y); try reflexivity. apply perm_swap.
  - now transitivity (filter p m).
Qed.

Lemma filter_swap {A} (p q : A -> bool) (l : list A) :
  filter p (filter q l) = filter q (filter p l).
Proof.
  induction l as [|x l IH]; simpl; [reflexivity|].
  destruct (p x) eqn:Hp, (q x) eqn:Hq; simpl; rewrite ?Hp, ?Hq, IH;
    reflexivity.
Qed.

Lemma newest_first_filter (p : Song -> bool) (rows : list Song) :
  newest_first rows -> newest_first (filter p rows).
Proof.
  unfold newest_first. induction 1 as [|r rows _ IH F]; simpl.
  - constructor.
  - destruct (p r); [|exact IH]. constructor; [exact IH|].
    rewrite Forall_forall in *. intros x Hx.
    apply filter_In in Hx. now apply F.
Qed.

Lemma DELETE_song_found_reply (drv : Driver) (env : Env) (songId : string)
    (w : World) (id : ObjectId) (song : Song) :
  parseObjectId drv songId = Some id ->
  catalog_down env = false ->
  song_with id (songs w) = Some song ->
  snd (DELETE_song drv env songId w)
  = json 200 (MessageBody "Song deleted successfully").
Proof.
  intros Hid Hup Hs.
  rewrite (DELETE_song_found drv env songId w Hid Hup Hs).
  destruct (fileId song) as [fid|]; [|reflexivity].
  destruct (storage_down env) eqn:Hsd.
  - destruct (storage_delete_fails env fid w (or_introl Hsd)) as [e ->].
    reflexivity.
  - destruct (has_file fid (uploads w)) eqn:Hh.
    + now rewrite (storage_delete_works env fid w Hsd Hh).
    + destruct (storage_delete_fails env fid w (or_intror Hh)) as [e ->].
      reflexivity.
Qed.

(** X20.  The list on the page follows the server: when the page shows
    an answer of the list query and the user confirms the delete of a
    Song that exists, the list that [handleDelete] leaves on the page is
    again an answer of the same query, now on the catalogue after the
    delete; it holds no row with the deleted id, the parent is told the
    id, and [handleSongDelete] then leaves no current Song with it. *)
Theorem page_list_follows_delete (drv : Driver) (env : Env)
    (songId : string) (w : World) (id : ObjectId) (song : Song)
    (st : Client.SongList) (keep : Song -> bool) :
  parseObjectId drv songId = Some id ->
  catalog_down env = false ->
  song_with id (songs w) = Some song ->
  find_sorted (songs w) keep (Client.songs st) ->
  fst (Client.handleDelete (DELETE_song drv env songId) id true st w)
  = fst (DELETE_song drv env songId w)
  /\ snd (snd (Client.handleDelete (DELETE_song drv env songId) id true st w))
     = Some id
  /\ find_sorted
       (songs (fst (DELETE_song drv env songId w))) keep
       (Client.songs
          (fst (snd (Client.handleDelete (DELETE_song drv env songId) id
                       true st w))))
  /\ (forall r,
        In r (Client.songs
                (fst (snd (Client.handleDelete (DELETE_song drv env songId)
                             id true st w)))) ->
        _id r <> id)
  /\ (forall current s,
        Client.handleSongDelete id current = Some s -> _id s <> id).
Proof.
  intros Hid Hup Hs [P S].
  pose proof (DELETE_song_found_reply drv env songId w Hid Hup Hs) as Hr.
  pose proof (DELETE_song_found_rows drv env songId w Hid Hup Hs) as Hrows.
  unfold Client.handleDelete.
  destruct (DELETE_song drv env songId w) as [w' r]. simpl in Hr, Hrows.
  subst r. simpl. rewrite Hrows.
  split; [reflexivity|]. split; [reflexivity|]. split; [|split].
  - split; [|now apply newest_first_filter].
    unfold without. rewrite filter_swap. now apply filter_perm.
  - intros r Hr. apply filter_In in Hr. destruct Hr as [_ Hr].
    apply negb_true_iff in Hr. now apply N.eqb_neq.
  - intros [c|] s; simpl; [|discriminate].
    destruct (N.eqb (_id c) id) eqn:E; [discriminate|].
    intros H. injection H as <-. now apply N.eqb_neq.
Qed.

Lemma page_list_follows_delete_witness :
  Client.songs
    (fst (snd (Client.handleDelete
                 (DELETE_song Sample.driver Sample.env Sample.id_blue_moon)
                 1%N true
                 (Client.mkSongList [Sample.sun; Sample.blue_moon] false "")
                 Sample.world)))
  = [Sample.sun]
  /\ find_sorted
       (songs (fst (DELETE_song Sample.driver Sample.env Sample.id_blue_moon
                      Sample.world)))
       (fun _ => true)
       (Client.songs
          (fst (snd (Client.handleDelete
                       (DELETE_song Sample.driver Sample.env
                          Sample.id_blue_moon)
                       1%N true
                       (Client.mkSongList [Sample.sun; Sample.blue_moon]
                          false "")
                       Sample.world)))).
Proof.
  split; [reflexivity|].
  refine (proj1 (proj2 (proj2
            (page_list_follows_delete Sample.driver Sample.env
               Sample.id_blue_moon Sample.world (id := 1%N)
               (song := Sample.blue_moon)
               (Client.mkSongList [Sample.sun; Sample.blue_moon] false "")
               (keep := fun _ => true) eq_refl eq_refl eq_refl _)))).
  split; [apply perm_swap | repeat constructor; simpl; lia].
Defined.

(** ** Search strings that are not patterns *)

Lemma compile_leading_quantifier (q : ascii) (rest : string) :
  q = "*"%char \/ q = "+"%char \/ q = "?"%char ->
  plain rest = true ->
  RegExp.compile (String q rest) = RegExp.SyntaxError.
Proof.
  intros Hq Hp. unfold RegExp.compile.
  change (Text.chars (String q rest)) with (q :: Text.chars rest).
  destruct Hq as [-> | [-> | ->]];
    cbn [RegExp.lex Ascii.eqb Bool.eqb];
    rewrite (lex_plain _ Hp); reflexivity.
Qed.

(** X21.  A search string that begins with a quantifier ([*], [+] or
    [?]) and goes on without syntax characters is not a pattern: the
    constructor throws, the handler catches, logs and answers 500
    "Server error"; the catalogue is not read. *)
Theorem search_leading_quantifier_is_500 (env : Env) (q : ascii)
    (rest : string) (w : World) :
  q = "*"%char \/ q = "+"%char \/ q = "?"%char ->
  plain rest = true ->
  GET_songs env (Some (String q rest)) w
    (logged (console_error "Error fetching songs:" RegExpSyntaxError) w,
     json 500 (ErrorBody "Server error"))
  /\ forall out,
       GET_songs env (Some (String q rest)) w out ->
       out = (logged (console_error "Error fetching songs:" RegExpSyntaxError)
                w,
              json 500 (ErrorBody "Server error")).
Proof.
  intros Hq Hp.
  assert (E : search_filter (Some (String q rest)) = RegExp.SyntaxError).
  { unfold search_filter. now rewrite (compile_leading_quantifier rest Hq Hp). }
  split.
  - now apply songs_bad_pattern.
  - intros out H. inversion H; subst; try congruence. reflexivity.
Qed.

Lemma search_leading_quantifier_witness :
  GET_songs Sample.env (Some "+moon") Sample.world
    (logged (console_error "Error fetching songs:" RegExpSyntaxError)
       Sample.world,
     json 500 (ErrorBody "Server error")).
Proof.
  exact (proj1 (search_leading_quantifier_is_500 Sample.env
                  (q := "+"%char) "moon" Sample.world
                  (or_intror (or_introl eq_refl)) eq_refl)).
Defined.
